(** * AudiTranscribe: the upload page script [main_page.js]

    A shallow embedding of [app/static/resources/js/main_page.js]: the
    change handler bound to the file input, and the callback it registers
    on the upload request.

    The script only talks to its environment: the two DOM elements it looks
    up at load time, the two page-wide constants [ACCEPTED_FILE_TYPES] and
    [MAX_AUDIO_FILE_SIZE], jQuery's [$.ajax], [JSON.parse],
    [String.prototype.toUpperCase] and [window.location].  The environment is a record [world]; the script is
    written in a small state-and-exception monad over it, and every call
    that leaves the script is also appended to a trace, so that the order
    of the calls can be stated. *)

From Stdlib Require Import String Ascii List Bool Arith ZArith NArith Lia.
Import ListNotations.

Local Open Scope string_scope.
Local Open Scope list_scope.

(** ** JavaScript strings *)

(** Strings are sequences of 8-bit code units (a text outside ASCII is the
    sequence of its UTF-8 bytes, in which '.' is never part of another
    character). [String.prototype.toUpperCase] is the browser's and is a
    field of the environment below; [ascii_toUpperCase] is what it does on
    ASCII text (a-z go to A-Z), and serves as the uppercasing of the sample
    pages. *)
Definition upper_ascii (c : ascii) : ascii :=
  let n := nat_of_ascii c in
  if (97 <=? n)%nat && (n <=? 122)%nat then ascii_of_nat (n - 32) else c.

Fixpoint ascii_toUpperCase (s : string) : string :=
  match s with
  | EmptyString => EmptyString
  | String c r => String (upper_ascii c) (ascii_toUpperCase r)
  end.

(** [split sep s] is [s.split(sep)] for a one-character separator: the
    segments between the occurrences of [sep], never an empty array. *)
Fixpoint split (sep : ascii) (s : string) : list string :=
  match s with
  | EmptyString => [EmptyString]
  | String c r =>
      if Ascii.eqb c sep then EmptyString :: split sep r
      else match split sep r with
           | [] => [String c EmptyString]
           | seg :: segs => String c seg :: segs
           end
  end.

(** [pop l] is the value of [l.pop()]: the last element, [undefined]
    (here [None]) on an empty array. *)
Fixpoint pop {A : Type} (l : list A) : option A :=
  match l with
  | [] => None
  | [x] => Some x
  | _ :: r => pop r
  end.

(** [includes l x] is [l.includes(x)] on an array of strings. *)
Definition includes (l : list string) (x : string) : bool :=
  existsb (String.eqb x) l.

(** [join l] is [String(l)] for an array of strings, as a template literal
    renders it: the elements separated by commas. *)
Definition join (l : list string) : string := String.concat "," l.

(** [contains c s]: the character [c] occurs in [s]. *)
Fixpoint contains (c : ascii) (s : string) : bool :=
  match s with
  | EmptyString => false
  | String d r => Ascii.eqb d c || contains c r
  end.

(** ** JavaScript values that [JSON.parse] produces *)

(** A number is kept as its rendering [String(n)]; an object as the list of
    its own properties. *)
#[local] Set Warnings "-register-all".
Inductive json : Type :=
| JNull
| JBool (b : bool)
| JNum (repr : string)
| JStr (s : string)
| JArr (items : list json)
| JObj (props : list (string * json)).

(** A JavaScript value as the script handles it: [None] is [undefined]. *)
Definition jsval := option json.

Definition str (s : string) : jsval := Some (JStr s).

Fixpoint lookup (k : string) (props : list (string * json)) : jsval :=
  match props with
  | [] => None
  | (k', v) :: r => if String.eqb k k' then Some v else lookup k r
  end.

(** [ToString v], the conversion the DOM applies to a value assigned to a
    string attribute; [None] when it throws a [TypeError]. An object that
    has a field [toString] of its own has no string form (the field is not
    callable, whatever JSON text it came from, and [valueOf] yields the
    object itself); any other object is "[object Object]". An array is the
    strings of its elements joined by commas, [null] giving the empty
    string. *)
Fixpoint json_to_string (v : json) : option string :=
  match v with
  | JNull => Some "null"
  | JBool true => Some "true"
  | JBool false => Some "false"
  | JNum repr => Some repr
  | JStr s => Some s
  | JArr items =>
      (fix join_items (l : list json) : option string :=
         match l with
         | [] => Some ""
         | i :: r =>
             match (match i with JNull => Some "" | _ => json_to_string i end),
                   join_items r with
             | Some a, Some b =>
                 Some (match r with [] => a | _ => (a ++ "," ++ b)%string end)
             | _, _ => None
             end
         end) items
  | JObj props =>
      match lookup "toString" props with
      | Some _ => None
      | None => Some "[object Object]"
      end
  end.

Definition to_string (v : jsval) : option string :=
  match v with
  | None => Some "undefined"
  | Some j => json_to_string j
  end.

(** [.text(v)] can set [v]: it is [undefined] or [null], or has a string
    form. *)
Definition renders (v : jsval) : bool :=
  match v with
  | None => true
  | Some JNull => true
  | Some j => match json_to_string j with Some _ => true | None => false end
  end.

(** The text that [.text(j)] sets, when [j] has one. *)
Definition shown (j : json) : option string :=
  match j with
  | JNull => Some ""
  | _ => json_to_string j
  end.

(** [window.location.href = v] can convert [v] to a string. *)
Definition assignable (v : jsval) : bool :=
  match to_string v with Some _ => true | None => false end.

(** [data[k] === s] for a string literal [s]. *)
Definition strict_eq_string (v : jsval) (s : string) : bool :=
  match v with
  | Some (JStr s') => String.eqb s' s
  | _ => false
  end.

(** The field [k] of a parsed reply, [undefined] when it has none. *)
Definition field (d : json) (k : string) : jsval :=
  match d with
  | JObj props => lookup k props
  | _ => None
  end.

(** ** The DOM and the page *)

(** The element [#outcome-text]: its text and its [class] attribute. *)
Record element := { textContent : string; classList : list string }.

Record File := { name : string; size : N }.

(** The element [#upload-file-input]: [value] is what [.val()] returns
    (empty when nothing is selected), [files] its [FileList]. *)
Record input_element := { value : string; files : list File }.

(** [MAX_AUDIO_FILE_SIZE]: the byte limit and its label. *)
Record max_size := { Value : Z; Name : string }.

Inductive form_value :=
| FileEntry (f : File)
| StringEntry (s : string).

Definition FormData := list (string * form_value).

(** [formData.append(field, v)]; a value that is not a [File] is stored as
    its string. *)
Definition FormData_append (fd : FormData) (field : string) (v : option File) : FormData :=
  fd ++ [(field, match v with
                 | Some f => FileEntry f
                 | None => StringEntry "undefined"
                 end)].

(** The settings object passed to [$.ajax]. *)
Record ajax_settings := {
  url : string;
  method : string;
  data : FormData;
  contentType : bool;
  processData : bool
}.

(** The callbacks of the script, by name. *)
Inductive callback := upload_done.

(** A request in flight, with the callbacks registered on it. *)
Record jqXHR := {
  settings : ajax_settings;
  doneCallbacks : list callback;
  failCallbacks : list callback
}.

(** The calls the script makes on its environment. *)
Inductive effect :=
| Text (v : jsval)
| RemoveClass (c : string)
| AddClass (c : string)
| Ajax (s : ajax_settings)
| Href (v : jsval).

Inductive exn := TypeError | SyntaxError.

(** The environment of the script: the browser's [toUpperCase], the two
    constants of the page, the two elements, the requests in flight and the
    calls made so far. *)
Record world := {
  toUpperCase : string -> string;
  ACCEPTED_FILE_TYPES : list string;
  MAX_AUDIO_FILE_SIZE : max_size;
  uploadFileInput : input_element;
  outcomeText : element;
  pending : list jqXHR;
  trace : list effect
}.

(** ** jQuery on [#outcome-text] *)

(** [.text(v)]: with [undefined] nothing is set; [null] clears the text;
    any other value is set as its string. jQuery empties the element before
    it assigns the text, so a value without a string form leaves it empty. *)
Definition set_text (v : jsval) (e : element) : element :=
  match v with
  | None => e
  | Some JNull => {| textContent := ""; classList := classList e |}
  | Some j =>
      {| textContent := match json_to_string j with Some s => s | None => "" end;
         classList := classList e |}
  end.

Definition has_class (c : string) (e : element) : bool :=
  existsb (String.eqb c) (classList e).

Definition remove_class (c : string) (e : element) : element :=
  {| textContent := textContent e;
     classList := filter (fun c' => negb (String.eqb c c')) (classList e) |}.

Definition add_class (c : string) (e : element) : element :=
  if has_class c e then e
  else {| textContent := textContent e; classList := classList e ++ [c] |}.

(** What a call does to [#outcome-text]. *)
Definition apply_effect (e : element) (f : effect) : element :=
  match f with
  | Text v => set_text v e
  | RemoveClass c => remove_class c e
  | AddClass c => add_class c e
  | Ajax _ => e
  | Href _ => e
  end.

Definition replay (e : element) (fs : list effect) : element :=
  fold_left apply_effect fs e.

(** ** The monad of the script *)

Inductive result (A : Type) :=
| Return (a : A)
| Throw (e : exn).
Arguments Return {A} a.
Arguments Throw {A} e.

Definition M (A : Type) := world -> result A * world.

Definition ret {A} (a : A) : M A := fun w => (Return a, w).
Definition throw {A} (e : exn) : M A := fun w => (Throw e, w).
Definition bind {A B} (m : M A) (k : A -> M B) : M B :=
  fun w => match m w with
           | (Return a, w') => k a w'
           | (Throw e, w') => (Throw e, w')
           end.

Notation "x <- m ;; k" := (bind m (fun x => k))
  (at level 61, m at next level, right associativity).
Notation "m ;; k" := (bind m (fun _ => k))
  (at level 61, right associativity).

Definition emit (f : effect) (w : world) : world :=
  {| toUpperCase := toUpperCase w;
     ACCEPTED_FILE_TYPES := ACCEPTED_FILE_TYPES w;
     MAX_AUDIO_FILE_SIZE := MAX_AUDIO_FILE_SIZE w;
     uploadFileInput := uploadFileInput w;
     outcomeText := apply_effect (outcomeText w) f;
     pending := pending w;
     trace := trace w ++ [f] |}.

Definition set_pending (p : list jqXHR) (w : world) : world :=
  {| toUpperCase := toUpperCase w;
     ACCEPTED_FILE_TYPES := ACCEPTED_FILE_TYPES w;
     MAX_AUDIO_FILE_SIZE := MAX_AUDIO_FILE_SIZE w;
     uploadFileInput := uploadFileInput w;
     outcomeText := outcomeText w;
     pending := p;
     trace := trace w |}.

Definition set_input (i : input_element) (w : world) : world :=
  {| toUpperCase := toUpperCase w;
     ACCEPTED_FILE_TYPES := ACCEPTED_FILE_TYPES w;
     MAX_AUDIO_FILE_SIZE := MAX_AUDIO_FILE_SIZE w;
     uploadFileInput := i;
     outcomeText := outcomeText w;
     pending := pending w;
     trace := trace w |}.

Definition do (f : effect) : M unit := fun w => (Return tt, emit f w).
Definition read {A} (g : world -> A) : M A := fun w => (Return (g w), w).

(** [outcomeText.text(v)], [.removeClass(c)], [.addClass(c)]. The call of
    [text] throws a [TypeError] when [v] has no string form. *)
Definition text (v : jsval) : M unit :=
  do (Text v) ;;
  if renders v then ret tt else throw TypeError.
Definition removeClass (c : string) : M unit := do (RemoveClass c).
Definition addClass (c : string) : M unit := do (AddClass c).

(** [uploadFileInput.val()] and [uploadFileInput[0].files[0]]. *)
Definition val : M string := read (fun w => value (uploadFileInput w)).
Definition files_0 : M (option File) := read (fun w => hd_error (files (uploadFileInput w))).

(** Reading a property of [undefined] throws. *)
Definition prop {A B} (g : A -> B) (o : option A) : M B :=
  match o with
  | Some a => ret (g a)
  | None => throw TypeError
  end.

(** [$.ajax(s)]: the request is sent and its handle returned. *)
Definition ajax (s : ajax_settings) : M nat :=
  fun w =>
    (Return (length (pending w)),
     set_pending (pending w ++ [{| settings := s; doneCallbacks := []; failCallbacks := [] |}])
       (emit (Ajax s) w)).

Fixpoint register_done (k : nat) (cb : callback) (p : list jqXHR) : list jqXHR :=
  match p, k with
  | [], _ => []
  | x :: r, O =>
      {| settings := settings x;
         doneCallbacks := doneCallbacks x ++ [cb];
         failCallbacks := failCallbacks x |} :: r
  | x :: r, S k' => x :: register_done k' cb r
  end.

(** [xhr.done(cb)]. *)
Definition done (xhr : nat) (cb : callback) : M unit :=
  fun w => (Return tt, set_pending (register_done xhr cb (pending w)) w).

(** [window.location.href = v]: the assignment throws a [TypeError] when
    [v] has no string form. What the browser does with the string (it
    resolves it against the address of the page and navigates, or refuses
    an address it cannot parse) is not part of the script. *)
Definition set_href (v : jsval) : M unit :=
  do (Href v) ;;
  if assignable v then ret tt else throw TypeError.

(** ** The change handler (lines 7-70) *)

(** [name.split(".").pop().toUpperCase()]. *)
Definition extension (name : string) : M string :=
  up <- read toUpperCase ;;
  prop up (pop (split "." name)).

Definition bad_type_message (types : list string) : string :=
  "File uploaded not of accepted file type. Accepted: " ++ join types ++ ".".

Definition too_big_message (label : string) : string :=
  "File is too big; please select a file that is smaller than " ++ label ++ ".".

Definition upload_settings (fd : FormData) : ajax_settings :=
  {| url := "/api/upload-file";
     method := "POST";
     data := fd;
     contentType := false;
     processData := false |}.

Definition change_handler : M unit :=
  text (str "") ;;
  removeClass "error-text" ;;
  removeClass "success-text" ;;
  v <- val ;;
  if String.eqb v "" then
    text (str "You must select a file.") ;;
    addClass "error-text"
  else
    types <- read ACCEPTED_FILE_TYPES ;;
    f <- files_0 ;;
    n <- prop name f ;;
    ext <- extension n ;;
    if negb (includes types ext) then
      text (str (bad_type_message types)) ;;
      addClass "error-text"
    else
      f <- files_0 ;;
      sz <- prop size f ;;
      limit <- read MAX_AUDIO_FILE_SIZE ;;
      if (Z.of_N sz >? Value limit)%Z then
        text (str (too_big_message (Name limit))) ;;
        addClass "error-text"
      else
        text (str "") ;;
        f <- files_0 ;;
        let formData := FormData_append [] "file" f in
        xhr <- ajax (upload_settings formData) ;;
        done xhr upload_done.

(** ** The callback of the upload request (lines 51-69) *)

Section Reply.

(** [JSON.parse], the browser's: [None] when it throws a [SyntaxError]. *)
Variable JSON_parse : string -> option json.

Definition parse (data : string) : M json :=
  match JSON_parse data with
  | Some j => ret j
  | None => throw SyntaxError
  end.

(** [d[k]] for the keys the script reads ("outcome", "msg", "url"), none of
    which a string, a number, a boolean or an array has: reading a property
    of [null] throws, an object yields its own property or [undefined]. *)
Definition get (d : json) (k : string) : M jsval :=
  match d with
  | JNull => throw TypeError
  | JObj props => ret (lookup k props)
  | _ => ret None
  end.

Definition on_upload_done (data : string) : M unit :=
  data <- parse data ;;
  outcome <- get data "outcome" ;;
  if strict_eq_string outcome "error" then
    msg <- get data "msg" ;;
    text msg ;;
    addClass "error-text"
  else
    msg <- get data "msg" ;;
    text msg ;;
    addClass "success-text" ;;
    u <- get data "url" ;;
    set_href u.

Definition run_callback (cb : callback) (arg : string) : M unit :=
  match cb with
  | upload_done => on_upload_done arg
  end.

(** The callbacks of a list run in order; one that throws stops the rest. *)
Fixpoint fire (cbs : list callback) (arg : string) : M unit :=
  match cbs with
  | [] => ret tt
  | cb :: r => run_callback cb arg ;; fire r arg
  end.

(** The calls of the callback on the reply [data]. *)
Definition reply_calls (data : string) : list effect :=
  match JSON_parse data with
  | None => []
  | Some JNull => []
  | Some d =>
      Text (field d "msg") ::
      if renders (field d "msg") then
        if strict_eq_string (field d "outcome") "error"
        then [AddClass "error-text"]
        else [AddClass "success-text"; Href (field d "url")]
      else []
  end.

(** ** The page as the event loop drives it *)

(** What can happen to the page: the user changes the selection of the file
    input, jQuery resolves the [k]-th request in flight with the text of the
    reply, or it rejects it (network failure, error status, timeout). *)
Inductive event :=
| Change (i : input_element)
| Done (k : nat) (data : string)
| Fail (k : nat).

Fixpoint remove_nth {A : Type} (k : nat) (l : list A) : list A :=
  match l, k with
  | [], _ => []
  | _ :: r, O => r
  | x :: r, S k' => x :: remove_nth k' r
  end.

(** One turn of the event loop. A [Throw] that comes back is an exception
    nobody caught. *)
Definition step (w : world) (ev : event) : result unit * world :=
  match ev with
  | Change i => change_handler (set_input i w)
  | Done k data =>
      match nth_error (pending w) k with
      | Some x => fire (doneCallbacks x) data (set_pending (remove_nth k (pending w)) w)
      | None => (Return tt, w)
      end
  | Fail k =>
      match nth_error (pending w) k with
      | Some x => fire (failCallbacks x) "error" (set_pending (remove_nth k (pending w)) w)
      | None => (Return tt, w)
      end
  end.

Definition run (w : world) (evs : list event) : world :=
  fold_left (fun w ev => snd (step w ev)) evs w.

(** No selection change happens while a request is in flight. *)
Fixpoint sequential (w : world) (evs : list event) : bool :=
  match evs with
  | [] => true
  | ev :: r =>
      match ev with
      | Change _ => match pending w with [] => true | _ => false end
      | _ => true
      end && sequential (snd (step w ev)) r
  end.

End Reply.

(** ** Vocabulary of the statements *)

Definition exec {A} (m : M A) (w : world) : world := snd (m w).

Definition emits (fs : list effect) (w : world) : world :=
  fold_left (fun w f => emit f w) fs w.

(** The requests of a trace, and the values that the assignments to
    [window.location.href] were made with, in order. *)
Fixpoint requests (fs : list effect) : list ajax_settings :=
  match fs with
  | [] => []
  | Ajax s :: r => s :: requests r
  | _ :: r => requests r
  end.

Fixpoint navigations (fs : list effect) : list jsval :=
  match fs with
  | [] => []
  | Href v :: r => v :: navigations r
  | _ :: r => navigations r
  end.

(** The addresses assigned to [window.location.href]: the strings of the
    values that have one (the browser then resolves them against the
    page's own address). *)
Definition locations (fs : list effect) : list string :=
  flat_map (fun v => match to_string v with Some s => [s] | None => [] end)
           (navigations fs).

Definition error_state (e : element) : bool :=
  has_class "error-text" e && negb (has_class "success-text" e).

Definition success_state (e : element) : bool :=
  has_class "success-text" e && negb (has_class "error-text" e).

Definition unstyled (e : element) : bool :=
  negb (has_class "error-text" e) && negb (has_class "success-text" e).

Definition exclusive (e : element) : bool :=
  negb (has_class "error-text" e && has_class "success-text" e).

(** The extension of a file name in the words of the specification: what
    follows the final '.', the whole name when it has none. *)
Fixpoint after_final_dot (s : string) : string :=
  match s with
  | EmptyString => EmptyString
  | String c r =>
      if contains "." r then after_final_dot r
      else if Ascii.eqb c "." then r
      else String c r
  end.

(** [a] and [b] are the same text up to letter case, as far as uppercasing
    tells: they have the same upper-case form, or one is the upper-case
    form of the other. *)
Definition same_up_to_case (up : string -> string) (a b : string) : Prop :=
  up a = up b \/ a = up b \/ up a = b.

(** The first three calls of every pass. *)
Definition reset : list effect :=
  [Text (str ""); RemoveClass "error-text"; RemoveClass "success-text"].

(** The request that uploads [f], and the world after a pass that sent it. *)
Definition upload_request (f : File) : ajax_settings :=
  {| url := "/api/upload-file";
     method := "POST";
     data := [("file", FileEntry f)];
     contentType := false;
     processData := false |}.

Definition uploading (f : File) (w : world) : world :=
  set_pending
    (pending w ++ [{| settings := upload_request f;
                      doneCallbacks := [upload_done];
                      failCallbacks := [] |}])
    (emits (reset ++ [Text (str ""); Ajax (upload_request f)]) w).

(** The file that passes the three checks, if there is one. *)
Definition valid_file (w : world) : option File :=
  if String.eqb (value (uploadFileInput w)) "" then None
  else match hd_error (files (uploadFileInput w)) with
       | None => None
       | Some f =>
           if includes (ACCEPTED_FILE_TYPES w) (toUpperCase w (after_final_dot (name f)))
              && (Z.of_N (size f) <=? Value (MAX_AUDIO_FILE_SIZE w))%Z
           then Some f else None
       end.

(** The calls that follow the reset when the type check has passed: the size
    error, or the clearing of the text and the request. *)
Definition after_type_check (w : world) (f : File) : list effect :=
  if (Z.of_N (size f) >? Value (MAX_AUDIO_FILE_SIZE w))%Z
  then [Text (str (too_big_message (Name (MAX_AUDIO_FILE_SIZE w)))); AddClass "error-text"]
  else [Text (str ""); Ajax (upload_request f)].

Definition type_rejection (w : world) : list effect :=
  [Text (str (bad_type_message (ACCEPTED_FILE_TYPES w))); AddClass "error-text"].

(** ** Runs of the page *)

(** [#outcome-text] never carries both classes along the calls [fs], from
    the element [e] on. *)
Fixpoint always_exclusive (e : element) (fs : list effect) : bool :=
  exclusive e &&
  match fs with
  | [] => true
  | f :: r => always_exclusive (apply_effect e f) r
  end.

(** The calls of one pass of the change handler. *)
Definition pass_calls (w : world) : list effect :=
  reset ++
  if String.eqb (value (uploadFileInput w)) ""
  then [Text (str "You must select a file."); AddClass "error-text"]
  else match hd_error (files (uploadFileInput w)) with
       | None => []
       | Some f =>
           if includes (ACCEPTED_FILE_TYPES w) (toUpperCase w (after_final_dot (name f)))
           then after_type_check w f
           else type_rejection w
       end.

(** Every request in flight has the script's callback as its only
    continuation. *)
Definition callbacks_of_script (w : world) : Prop :=
  Forall (fun x => doneCallbacks x = [upload_done] /\ failCallbacks x = []) (pending w).

(** The page is idle, or it waits for the reply to its one request with
    [#outcome-text] carrying neither class. *)
Definition idle_or_waiting (w : world) : Prop :=
  (pending w = [] /\ exclusive (outcomeText w) = true)
  \/ (exists x, pending w = [x]
                /\ doneCallbacks x = [upload_done] /\ failCallbacks x = []
                /\ unstyled (outcomeText w) = true).

Definition set_display (e : element) (w : world) : world :=
  {| toUpperCase := toUpperCase w;
     ACCEPTED_FILE_TYPES := ACCEPTED_FILE_TYPES w;
     MAX_AUDIO_FILE_SIZE := MAX_AUDIO_FILE_SIZE w;
     uploadFileInput := uploadFileInput w;
     outcomeText := e;
     pending := pending w;
     trace := trace w |}.

(** ** A page and its replies *)

Definition page : world :=
  {| toUpperCase := ascii_toUpperCase;
     ACCEPTED_FILE_TYPES := ["WAV"; "MP3"; "FLAC"];
     MAX_AUDIO_FILE_SIZE := {| Value := 100000000; Name := "100 MB" |};
     uploadFileInput := {| value := ""; files := [] |};
     outcomeText := {| textContent := ""; classList := [] |};
     pending := [];
     trace := [] |}.

(** The file input after the user picked [f]. *)
Definition pick (f : File) : input_element :=
  {| value := "C:\fakepath\" ++ name f; files := [f] |}.

Definition picked (f : File) (w : world) : world := set_input (pick f) w.

(** A page whose allow-list is written in lower case. *)
Definition page_lower : world :=
  {| toUpperCase := ascii_toUpperCase;
     ACCEPTED_FILE_TYPES := ["wav"; "mp3"];
     MAX_AUDIO_FILE_SIZE := MAX_AUDIO_FILE_SIZE page;
     uploadFileInput := pick {| name := "song.wav"; size := 1000 |};
     outcomeText := outcomeText page;
     pending := [];
     trace := [] |}.

Definition quoted (s : string) : string :=
  String "034"%char s ++ String "034"%char "".

(** The two replies of the specification's examples, and a success reply
    without url. *)
Definition error_body : string :=
  "{" ++ quoted "outcome" ++ ":" ++ quoted "error" ++ ","
      ++ quoted "msg" ++ ":" ++ quoted "bad format" ++ "}".

Definition ok_body : string :=
  "{" ++ quoted "outcome" ++ ":" ++ quoted "ok" ++ ","
      ++ quoted "msg" ++ ":" ++ quoted "done" ++ ","
      ++ quoted "url" ++ ":" ++ quoted "/next" ++ "}".

Definition ok_no_url_body : string :=
  "{" ++ quoted "outcome" ++ ":" ++ quoted "ok" ++ ","
      ++ quoted "msg" ++ ":" ++ quoted "done" ++ "}".

(** [JSON.parse] on the three replies above; any other text is taken as
    malformed. *)
Definition sample_parse (s : string) : option json :=
  if String.eqb s error_body then
    Some (JObj [("outcome", JStr "error"); ("msg", JStr "bad format")])
  else if String.eqb s ok_body then
    Some (JObj [("outcome", JStr "ok"); ("msg", JStr "done"); ("url", JStr "/next")])
  else if String.eqb s ok_no_url_body then
    Some (JObj [("outcome", JStr "ok"); ("msg", JStr "done")])
  else None.

Definition song : File := {| name := "song.Wav"; size := 4000000 |}.
Definition notes : File := {| name := "notes.txt"; size := 120 |}.

Definition at_limit : File := {| name := "take.mp3"; size := 100000000 |}.
Definition above_limit : File := {| name := "take.mp3"; size := 100000001 |}.

Definition no_dot : File := {| name := "flac"; size := 10 |}.

(** The page once the request for [song] is in flight. *)
Definition waiting : world := exec change_handler (picked song page).

(** A run in which each selection waits for the reply to the one before. *)
Definition one_by_one : list event :=
  [Change (pick song); Done 0 error_body; Change (pick notes);
   Change (pick song); Done 0 ok_body].

(** ** Further vocabulary *)

(** The request that the selection change [ev] sends from the page [w]:
    none for a reply or a failure. *)
Definition uploads (w : world) (ev : event) : list ajax_settings :=
  match ev with
  | Change i =>
      match valid_file (set_input i w) with
      | Some f => [upload_request f]
      | None => []
      end
  | _ => []
  end.

(** The call sets the text, or adds or removes one of the two classes of
    the script, or does not touch [#outcome-text]. *)
Definition own_call (f : effect) : bool :=
  match f with
  | RemoveClass c | AddClass c =>
      String.eqb c "error-text" || String.eqb c "success-text"
  | _ => true
  end.

(** A success reply whose url is a fragment of the page's own address (the
    page is not left), and one whose msg is an object with a field
    [toString]. *)
Definition fragment_body : string :=
  "{" ++ quoted "outcome" ++ ":" ++ quoted "ok" ++ ","
      ++ quoted "msg" ++ ":" ++ quoted "done" ++ ","
      ++ quoted "url" ++ ":" ++ quoted "#done" ++ "}".

Definition odd_body : string :=
  "{" ++ quoted "outcome" ++ ":" ++ quoted "ok" ++ ","
      ++ quoted "msg" ++ ":{" ++ quoted "toString" ++ ":1},"
      ++ quoted "url" ++ ":" ++ quoted "/next" ++ "}".

(** [JSON.parse] on these two replies and on the error reply; any other
    text is taken as malformed. *)
Definition late_parse (s : string) : option json :=
  if String.eqb s error_body then
    Some (JObj [("outcome", JStr "error"); ("msg", JStr "bad format")])
  else if String.eqb s fragment_body then
    Some (JObj [("outcome", JStr "ok"); ("msg", JStr "done"); ("url", JStr "#done")])
  else if String.eqb s odd_body then
    Some (JObj [("outcome", JStr "ok"); ("msg", JObj [("toString", JNum "1")]);
                ("url", JStr "/next")])
  else None.

(** The event is not a reply. *)
Definition no_reply (ev : event) : bool :=
  match ev with
  | Done _ _ => false
  | _ => true
  end.

(** A run without replies: a selection, the failure of its upload, a second
    selection that is rejected. *)
Definition offline : list event :=
  [Change {| value := "C:\fakepath\song.Wav";
             files := [{| name := "song.Wav"; size := 4000000 |}] |};
   Fail 0;
   Change {| value := "C:\fakepath\notes.txt";
             files := [{| name := "notes.txt"; size := 120 |}] |}].

(** The file input with the path [v] and the file list [fs]. *)
Definition selecting (v : string) (fs : list File) (w : world) : world :=
  set_input {| value := v; files := fs |} w.

(** [JSON.parse] on three replies that are valid JSON and no object; any
    other text is taken as malformed. *)
Definition bare_parse (s : string) : option json :=
  if String.eqb s "null" then Some JNull
  else if String.eqb s "42" then Some (JNum "42")
  else if String.eqb s "[]" then Some (JArr [])
  else None.

Definition archive : File := {| name := "backup.tar.mp3"; size := 2048 |}.
Definition shouting : File := {| name := "SONG.WAV"; size := 4000000 |}.
Definition short_take : File := {| name := "take.mp3"; size := 0 |}.

(** A page whose outcome element carries a class of the style sheet. *)
Definition styled_page : world :=
  set_display {| textContent := ""; classList := ["banner"] |} page.

(** ** Tactics *)

Create Rewrite HintDb dom.

(** Computes the state of [#outcome-text] after a given list of calls. *)
Ltac dom := unfold replay; cbn [fold_left apply_effect app reset];
  unfold error_state, success_state, unstyled, exclusive;
  autorewrite with dom; cbn [String.eqb Ascii.eqb Bool.eqb negb andb orb];
  repeat rewrite ?andb_true_r, ?andb_false_r, ?orb_false_r, ?orb_true_r;
  try reflexivity.

(** Runs the script up to its next test, leaving the tests and the message
    texts folded. *)
Ltac script_step :=
  cbn -[extension includes bad_type_message too_big_message
        Z.gtb Z.of_N hd_error register_done].

(** Splits [always_exclusive] along an explicit list of calls and decides
    each point from the two classes of the starting element. *)
Ltac points e :=
  cbn [always_exclusive app reset apply_effect];
  unfold exclusive, unstyled in *; autorewrite with dom;
  cbn [String.eqb Ascii.eqb Bool.eqb negb andb orb];
  destruct (has_class "error-text" e), (has_class "success-text" e);
  try discriminate; reflexivity.

(** ** Strings and classes *)

Lemma upper_ascii_idem (c : ascii) : upper_ascii (upper_ascii c) = upper_ascii c.
Proof.
  destruct c as [[] [] [] [] [] [] [] []]; reflexivity.
Qed.

Lemma toUpperCase_idem (s : string) :
  ascii_toUpperCase (ascii_toUpperCase s) = ascii_toUpperCase s.
Proof.
  induction s as [|c r IH]; simpl; [reflexivity|].
  now rewrite upper_ascii_idem, IH.
Qed.

Lemma split_nonempty (sep : ascii) (s : string) : split sep s <> [].
Proof.
  destruct s as [|c r]; simpl; [discriminate|].
  destruct (Ascii.eqb c sep); [discriminate|].
  destruct (split sep r); discriminate.
Qed.

Lemma split_no_sep (sep : ascii) (s : string) :
  contains sep s = false -> split sep s = [s].
Proof.
  induction s as [|c r IH]; simpl; intros H; [reflexivity|].
  apply orb_false_iff in H as [Hc Hr].
  rewrite Hc, (IH Hr). reflexivity.
Qed.

Lemma pop_cons {A : Type} (x : A) (l : list A) : l <> [] -> pop (x :: l) = pop l.
Proof.
  destruct l; [congruence|reflexivity].
Qed.

Lemma split_single (sep : ascii) (s x : string) :
  split sep s = [x] -> contains sep s = false.
Proof.
  revert x. induction s as [|c r IH]; simpl; intros x; [reflexivity|].
  destruct (Ascii.eqb c sep).
  - intros H. injection H as _ H. now apply split_nonempty in H.
  - destruct (split sep r) as [|seg segs] eqn:Hs.
    + exfalso. now apply (split_nonempty sep r).
    + intros H. injection H as _ H. subst segs. simpl. now apply (IH seg).
Qed.

(** [split] and [pop] compute the extension of the specification. *)
Lemma pop_split_dot (s : string) : pop (split "." s) = Some (after_final_dot s).
Proof.
  induction s as [|c r IH]; [reflexivity|].
  cbn [split after_final_dot].
  destruct (Ascii.eqb c ".") eqn:Hc.
  - rewrite pop_cons by apply split_nonempty.
    destruct (contains "." r) eqn:Hr; [exact IH|].
    rewrite (split_no_sep _ _ Hr). reflexivity.
  - destruct (contains "." r) eqn:Hr.
    + destruct (split "." r) as [|seg [|seg' segs]] eqn:Hs.
      * exfalso. now apply (split_nonempty "." r).
      * apply split_single in Hs. congruence.
      * exact IH.
    + rewrite (split_no_sep _ _ Hr). reflexivity.
Qed.

Lemma has_class_set_text (c : string) (v : jsval) (e : element) :
  has_class c (set_text v e) = has_class c e.
Proof.
  destruct v as [[]|]; reflexivity.
Qed.

Lemma has_class_remove_class (c c' : string) (e : element) :
  has_class c (remove_class c' e) = has_class c e && negb (String.eqb c' c).
Proof.
  unfold has_class, remove_class; simpl.
  induction (classList e) as [|x l IH]; simpl; [reflexivity|].
  destruct (String.eqb c' x) eqn:Hx; simpl; rewrite IH.
  - apply String.eqb_eq in Hx. subst x.
    rewrite (String.eqb_sym c c').
    destruct (String.eqb c' c); simpl; [|reflexivity].
    now rewrite andb_false_r.
  - destruct (String.eqb c x) eqn:Hc; simpl; [|reflexivity].
    apply String.eqb_eq in Hc. subst x. now rewrite Hx.
Qed.

Lemma has_class_add_class (c c' : string) (e : element) :
  has_class c (add_class c' e) = has_class c e || String.eqb c' c.
Proof.
  unfold add_class.
  destruct (has_class c' e) eqn:Hc'.
  - destruct (String.eqb c' c) eqn:E; [|now rewrite orb_false_r].
    apply String.eqb_eq in E. subst c'. now rewrite Hc'.
  - unfold has_class; simpl. rewrite existsb_app; simpl.
    now rewrite orb_false_r, (String.eqb_sym c c').
Qed.

Lemma textContent_remove_class (c : string) (e : element) :
  textContent (remove_class c e) = textContent e.
Proof. reflexivity. Qed.

Lemma textContent_add_class (c : string) (e : element) :
  textContent (add_class c e) = textContent e.
Proof. unfold add_class. now destruct (has_class c e). Qed.

Lemma textContent_set_text_str (s : string) (e : element) :
  textContent (set_text (str s) e) = s.
Proof. reflexivity. Qed.

#[local] Hint Rewrite has_class_set_text has_class_remove_class has_class_add_class
  textContent_remove_class textContent_add_class textContent_set_text_str : dom.

(** ** The world after a list of calls *)

Lemma trace_emits (fs : list effect) (w : world) : trace (emits fs w) = trace w ++ fs.
Proof.
  revert w. induction fs as [|f fs IH]; intros w; simpl.
  - now rewrite app_nil_r.
  - unfold emits in *; simpl. rewrite IH; simpl. now rewrite <- app_assoc.
Qed.

Lemma outcomeText_emits (fs : list effect) (w : world) :
  outcomeText (emits fs w) = replay (outcomeText w) fs.
Proof.
  revert w. induction fs as [|f fs IH]; intros w; [reflexivity|].
  unfold emits, replay in *; simpl. now rewrite IH.
Qed.

Lemma pending_emits (fs : list effect) (w : world) : pending (emits fs w) = pending w.
Proof.
  revert w. induction fs as [|f fs IH]; intros w; [reflexivity|].
  unfold emits in *; simpl. now rewrite IH.
Qed.

Lemma requests_app (fs gs : list effect) : requests (fs ++ gs) = requests fs ++ requests gs.
Proof.
  induction fs as [|[] fs IH]; simpl; congruence.
Qed.

Lemma navigations_app (fs gs : list effect) :
  navigations (fs ++ gs) = navigations fs ++ navigations gs.
Proof.
  induction fs as [|[] fs IH]; simpl; congruence.
Qed.

Lemma register_done_last (p : list jqXHR) (x : jqXHR) (cb : callback) :
  register_done (length p) cb (p ++ [x]) =
  p ++ [{| settings := settings x;
           doneCallbacks := doneCallbacks x ++ [cb];
           failCallbacks := failCallbacks x |}].
Proof.
  induction p as [|y p IH]; simpl; [reflexivity|]. now rewrite IH.
Qed.

(** ** The change handler, branch by branch *)

Lemma extension_spec (n : string) (w : world) :
  extension n w = (Return (toUpperCase w (after_final_dot n)), w).
Proof.
  unfold extension, read, bind. now rewrite pop_split_dot.
Qed.

Lemma change_handler_empty (w : world) :
  value (uploadFileInput w) = "" ->
  change_handler w =
  (Return tt,
   emits (reset ++ [Text (str "You must select a file."); AddClass "error-text"]) w).
Proof.
  intros Hv. unfold change_handler, bind, text, removeClass, addClass, do, val, read.
  cbn. rewrite Hv. reflexivity.
Qed.

Lemma change_handler_no_file (w : world) :
  value (uploadFileInput w) <> "" ->
  files (uploadFileInput w) = [] ->
  change_handler w = (Throw TypeError, emits reset w).
Proof.
  intros Hv Hf. apply String.eqb_neq in Hv.
  unfold change_handler, bind, text, removeClass, addClass, do, val, read, files_0.
  cbn. rewrite Hv. cbn. rewrite Hf. reflexivity.
Qed.

Lemma change_handler_selected (w : world) (f : File) :
  value (uploadFileInput w) <> "" ->
  hd_error (files (uploadFileInput w)) = Some f ->
  change_handler w =
  (Return tt,
   if negb (includes (ACCEPTED_FILE_TYPES w) (toUpperCase w (after_final_dot (name f))))
   then emits (reset ++ [Text (str (bad_type_message (ACCEPTED_FILE_TYPES w)));
                         AddClass "error-text"]) w
   else if (Z.of_N (size f) >? Value (MAX_AUDIO_FILE_SIZE w))%Z
   then emits (reset ++ [Text (str (too_big_message (Name (MAX_AUDIO_FILE_SIZE w))));
                         AddClass "error-text"]) w
   else uploading f w).
Proof.
  intros Hv Hf. apply String.eqb_neq in Hv.
  unfold change_handler, bind, text, removeClass, addClass, do, val, read, files_0.
  script_step. rewrite Hv. script_step. rewrite !Hf. script_step.
  rewrite extension_spec.
  destruct (includes _ _); script_step; [|reflexivity].
  rewrite !Hf. script_step.
  destruct (Z.of_N (size f) >? _)%Z; script_step; [reflexivity|].
  rewrite !Hf. unfold ajax, done, uploading.
  script_step. rewrite register_done_last. reflexivity.
Qed.

Lemma includes_In (l : list string) (x : string) : includes l x = true <-> In x l.
Proof.
  unfold includes. rewrite existsb_exists. split.
  - intros (y & Hy & E). apply String.eqb_eq in E. now subst.
  - intros H. exists x. split; [exact H|apply String.eqb_refl].
Qed.

Lemma includes_not_In (l : list string) (x : string) : includes l x = false <-> ~ In x l.
Proof.
  rewrite <- includes_In. destruct (includes l x); split; congruence.
Qed.

Lemma trace_selected (w : world) (f : File) :
  value (uploadFileInput w) <> "" ->
  hd_error (files (uploadFileInput w)) = Some f ->
  trace (exec change_handler w) =
  trace w ++ reset ++
  (if includes (ACCEPTED_FILE_TYPES w) (toUpperCase w (after_final_dot (name f)))
   then after_type_check w f else type_rejection w).
Proof.
  intros Hv Hf. unfold exec, after_type_check, type_rejection.
  rewrite (change_handler_selected w f Hv Hf). cbn [snd].
  destruct (includes _ _); cbn [negb].
  - destruct (_ >? _)%Z; [apply trace_emits|].
    unfold uploading. change (trace (set_pending ?p ?x)) with (trace x).
    apply trace_emits.
  - apply trace_emits.
Qed.

(** The requests in flight after a pass: one more when, and only when, the
    three checks pass, with the script's callback as its only continuation. *)
Lemma pending_change_handler (w : world) :
  pending (exec change_handler w) =
  pending w ++
  match valid_file w with
  | Some f => [{| settings := upload_request f;
                  doneCallbacks := [upload_done];
                  failCallbacks := [] |}]
  | None => []
  end.
Proof.
  unfold valid_file, exec.
  destruct (String.eqb (value (uploadFileInput w)) "") eqn:Hv.
  - apply String.eqb_eq in Hv. rewrite (change_handler_empty w Hv). cbn [snd].
    now rewrite pending_emits, app_nil_r.
  - apply String.eqb_neq in Hv.
    destruct (files (uploadFileInput w)) as [|f fs] eqn:Hf.
    + rewrite (change_handler_no_file w Hv Hf). cbn [snd hd_error].
      now rewrite pending_emits, app_nil_r.
    + assert (Hh : hd_error (files (uploadFileInput w)) = Some f) by now rewrite Hf.
      rewrite (change_handler_selected w f Hv Hh). cbn [snd hd_error].
      destruct (includes _ _); cbn [negb andb].
      * rewrite Z.gtb_ltb, Z.leb_antisym.
        destruct (Z.ltb _ _); cbn [negb].
        -- now rewrite pending_emits, app_nil_r.
        -- reflexivity.
      * now rewrite pending_emits, app_nil_r.
Qed.

Lemma rejected_selected (w : world) (f : File) (msg : string) :
  let w' := emits (reset ++ [Text (str msg); AddClass "error-text"]) w in
  textContent (outcomeText w') = msg
  /\ error_state (outcomeText w') = true
  /\ requests (trace w') = requests (trace w)
  /\ pending w' = pending w.
Proof.
  cbv zeta. rewrite outcomeText_emits, trace_emits, pending_emits, requests_app.
  repeat split.
  - dom.
  - dom.
  - cbn. now rewrite app_nil_r.
Qed.

Lemma after_final_dot_no_dot (s : string) :
  contains "." s = false -> after_final_dot s = s.
Proof.
  destruct s as [|c r]; [reflexivity|]. simpl. intros H.
  apply orb_false_iff in H as [Hc Hr]. now rewrite Hr, Hc.
Qed.

Lemma type_rejection_not_after (w : world) (f : File) :
  type_rejection w <> after_type_check w f.
Proof.
  unfold type_rejection, after_type_check, bad_type_message, too_big_message.
  destruct (_ >? _)%Z; cbn; intros H; discriminate H.
Qed.

(** After a pass that sent a request, [#outcome-text] is empty and carries
    neither class. *)
Lemma display_after_upload (w : world) (f : File) :
  valid_file w = Some f ->
  textContent (outcomeText (exec change_handler w)) = ""
  /\ unstyled (outcomeText (exec change_handler w)) = true.
Proof.
  unfold valid_file. intros H.
  destruct (String.eqb (value (uploadFileInput w)) "") eqn:Hv; [discriminate|].
  apply String.eqb_neq in Hv.
  destruct (hd_error (files (uploadFileInput w))) as [g|] eqn:Hf; [|discriminate].
  destruct (includes _ _) eqn:Hi; [|discriminate].
  destruct (Z.leb _ _) eqn:Hs; [|discriminate].
  injection H as ->.
  unfold exec. rewrite (change_handler_selected w f Hv Hf), Hi. cbn [negb snd].
  rewrite Z.gtb_ltb, Z.ltb_antisym, Hs. cbn [negb].
  unfold uploading. change (outcomeText (set_pending ?p ?x)) with (outcomeText x).
  rewrite outcomeText_emits. split; dom.
Qed.

Lemma strict_eq_string_true (v : jsval) (s : string) :
  strict_eq_string v s = true <-> v = str s.
Proof.
  unfold str. destruct v as [[]|]; simpl; split; intros H; try discriminate.
  - apply String.eqb_eq in H. now subst.
  - injection H as ->. apply String.eqb_refl.
Qed.

(** ** Points along a trace *)

Lemma always_exclusive_app (e : element) (fs gs : list effect) :
  always_exclusive e (fs ++ gs)
  = always_exclusive e fs && always_exclusive (replay e fs) gs.
Proof.
  revert e. induction fs as [|f fs IH]; intros e; simpl.
  - destruct gs; simpl; destruct (exclusive e); reflexivity.
  - rewrite IH. unfold replay; simpl. now rewrite andb_assoc.
Qed.

Lemma always_exclusive_prefix (e : element) (p q : list effect) :
  always_exclusive e (p ++ q) = true -> exclusive (replay e p) = true.
Proof.
  rewrite always_exclusive_app. intros H.
  apply andb_true_iff in H as [_ H].
  destruct q; simpl in H; apply andb_true_iff in H; tauto.
Qed.

Lemma change_handler_calls (w : world) :
  trace (exec change_handler w) = trace w ++ pass_calls w
  /\ outcomeText (exec change_handler w) = replay (outcomeText w) (pass_calls w).
Proof.
  unfold pass_calls, exec.
  destruct (String.eqb (value (uploadFileInput w)) "") eqn:Hv.
  - apply String.eqb_eq in Hv. rewrite (change_handler_empty w Hv). cbn [snd].
    now rewrite trace_emits, outcomeText_emits.
  - apply String.eqb_neq in Hv.
    destruct (files (uploadFileInput w)) as [|f fs] eqn:Hf.
    + rewrite (change_handler_no_file w Hv Hf). cbn [snd hd_error].
      now rewrite trace_emits, outcomeText_emits, app_nil_r.
    + assert (Hh : hd_error (files (uploadFileInput w)) = Some f) by now rewrite Hf.
      rewrite (change_handler_selected w f Hv Hh). cbn [snd hd_error].
      unfold after_type_check, type_rejection.
      destruct (includes _ _); cbn [negb].
      * destruct (_ >? _)%Z; [now rewrite trace_emits, outcomeText_emits|].
        unfold uploading.
        change (trace (set_pending ?p ?x)) with (trace x).
        change (outcomeText (set_pending ?p ?x)) with (outcomeText x).
        now rewrite trace_emits, outcomeText_emits.
      * now rewrite trace_emits, outcomeText_emits.
Qed.

Lemma pass_always_exclusive (w : world) :
  exclusive (outcomeText w) = true ->
  always_exclusive (outcomeText w) (pass_calls w) = true.
Proof.
  intros H. unfold pass_calls, after_type_check, type_rejection.
  destruct (String.eqb _ _); [points (outcomeText w)|].
  destruct (hd_error _); [|points (outcomeText w)].
  destruct (includes _ _); [|points (outcomeText w)].
  destruct (_ >? _)%Z; points (outcomeText w).
Qed.

Lemma pass_unstyled_when_valid (w : world) (f : File) :
  valid_file w = Some f -> unstyled (replay (outcomeText w) (pass_calls w)) = true.
Proof.
  intros H. destruct (change_handler_calls w) as [_ <-].
  now destruct (display_after_upload w f H).
Qed.

Lemma unstyled_exclusive (e : element) : unstyled e = true -> exclusive e = true.
Proof.
  unfold unstyled, exclusive.
  now destruct (has_class "error-text" e), (has_class "success-text" e).
Qed.

Lemma idle_or_waiting_exclusive (w : world) :
  idle_or_waiting w -> exclusive (outcomeText w) = true.
Proof.
  intros [[_ H]|(x & _ & _ & _ & H)]; [exact H|now apply unstyled_exclusive].
Qed.

Lemma always_exclusive_nil (e : element) :
  always_exclusive e [] = exclusive e.
Proof. simpl. apply andb_true_r. Qed.

Lemma Forall_remove_nth {A : Type} (P : A -> Prop) (k : nat) (l : list A) :
  Forall P l -> Forall P (remove_nth k l).
Proof.
  intros H. revert k. induction H as [|x l Hx Hl IH]; intros k.
  - destruct k; constructor.
  - destruct k; simpl; [exact Hl|]. constructor; [exact Hx|apply IH].
Qed.

Lemma pass_display_fresh (w : world) (e1 e2 : element) :
  textContent (replay e1 (pass_calls w)) = textContent (replay e2 (pass_calls w))
  /\ has_class "error-text" (replay e1 (pass_calls w))
     = has_class "error-text" (replay e2 (pass_calls w))
  /\ has_class "success-text" (replay e1 (pass_calls w))
     = has_class "success-text" (replay e2 (pass_calls w)).
Proof.
  unfold pass_calls, after_type_check, type_rejection.
  destruct (String.eqb _ _); [repeat split; dom|].
  destruct (hd_error _); [|repeat split; dom].
  destruct (includes _ _); [|repeat split; dom].
  destruct (_ >? _)%Z; repeat split; dom.
Qed.

(** ** The validation pass *)

(** C1: the requests a pass of the change handler issues are exactly one
    POST to /api/upload-file, whose body has the single field "file" holding
    the selected file, when a file is selected, its uppercased extension is
    in the allow-list and its size is at most the limit; and none at all
    otherwise. *)
Theorem upload_iff_valid (w : world) :
  requests (trace (exec change_handler w)) =
  requests (trace w) ++
  match valid_file w with
  | Some f => [{| url := "/api/upload-file";
                  method := "POST";
                  data := [("file", FileEntry f)];
                  contentType := false;
                  processData := false |}]
  | None => []
  end
  /\ (forall f,
      valid_file w = Some f <->
      value (uploadFileInput w) <> ""
      /\ hd_error (files (uploadFileInput w)) = Some f
      /\ In (toUpperCase w (after_final_dot (name f))) (ACCEPTED_FILE_TYPES w)
      /\ (Z.of_N (size f) <= Value (MAX_AUDIO_FILE_SIZE w))%Z).
Proof.
  split; [|intros f; unfold valid_file;
           destruct (String.eqb (value (uploadFileInput w)) "") eqn:Hv;
           [apply String.eqb_eq in Hv; split; [discriminate|tauto]|];
           apply String.eqb_neq in Hv;
           destruct (hd_error (files (uploadFileInput w))) as [g|];
           [|split; [discriminate|intros (_ & H & _); discriminate]];
           destruct (includes _ _) eqn:Hi; cbn [andb];
           [apply includes_In in Hi|apply includes_not_In in Hi];
           [|split; [discriminate|intros (_ & [= <-] & H & _); tauto]];
           destruct (Z.leb_spec (Z.of_N (size g)) (Value (MAX_AUDIO_FILE_SIZE w)));
           split; try discriminate;
           [intros [= <-]; tauto|intros (_ & [= <-] & _); reflexivity
           |intros (_ & [= <-] & _ & H'); lia]].
  unfold valid_file.
  destruct (String.eqb (value (uploadFileInput w)) "") eqn:Hv.
  - apply String.eqb_eq in Hv. unfold exec. rewrite (change_handler_empty w Hv).
    cbn [snd]. rewrite trace_emits, requests_app. cbn. reflexivity.
  - apply String.eqb_neq in Hv.
    destruct (files (uploadFileInput w)) as [|f fs] eqn:Hf.
    + unfold exec. rewrite (change_handler_no_file w Hv Hf).
      cbn [snd hd_error]. rewrite trace_emits, requests_app. reflexivity.
    + assert (Hh : hd_error (files (uploadFileInput w)) = Some f) by now rewrite Hf.
      cbn [hd_error]. rewrite (trace_selected w f Hv Hh), !requests_app.
      unfold after_type_check, type_rejection.
      destruct (includes _ _); cbn [andb]; [|reflexivity].
      rewrite Z.gtb_ltb, Z.leb_antisym.
      destruct (Z.ltb _ _); reflexivity.
Qed.

(** C2: when no file is selected, the pass ends with the text
    "You must select a file." in the error state; it makes the five calls
    below and nothing else, whatever the file list, the allow-list and the
    limit are: it sends no request and returns before the extension and the
    size are looked at. *)
Theorem no_file_selected (w : world) :
  value (uploadFileInput w) = "" ->
  change_handler w =
    (Return tt,
     emits [Text (str ""); RemoveClass "error-text"; RemoveClass "success-text";
            Text (str "You must select a file."); AddClass "error-text"] w)
  /\ textContent (outcomeText (exec change_handler w)) = "You must select a file."
  /\ error_state (outcomeText (exec change_handler w)) = true
  /\ requests (trace (exec change_handler w)) = requests (trace w)
  /\ pending (exec change_handler w) = pending w.
Proof.
  intros Hv. unfold exec. rewrite (change_handler_empty w Hv). cbn [snd].
  split; [reflexivity|].
  rewrite outcomeText_emits, trace_emits, pending_emits, requests_app.
  repeat split.
  - dom.
  - dom.
  - cbn. now rewrite app_nil_r.
Qed.

(** C3, as the code has it: a selected file whose extension matches no entry
    of the allow-list, letter case set aside, ends the pass in the error
    state with the message that lists the accepted types, and no request is
    sent; and a file whose extension is, in any casing, an entry of the
    allow-list that is written in upper case passes the type check (the
    pass goes on to the size check). *)
Theorem allow_list_check (w : world) (f : File) :
  value (uploadFileInput w) <> "" ->
  hd_error (files (uploadFileInput w)) = Some f ->
  ((forall e, In e (ACCEPTED_FILE_TYPES w) ->
              ~ same_up_to_case (toUpperCase w) e (after_final_dot (name f))) ->
   textContent (outcomeText (exec change_handler w))
     = bad_type_message (ACCEPTED_FILE_TYPES w)
   /\ error_state (outcomeText (exec change_handler w)) = true
   /\ requests (trace (exec change_handler w)) = requests (trace w)
   /\ pending (exec change_handler w) = pending w)
  /\
  (forall e, In e (ACCEPTED_FILE_TYPES w) ->
             toUpperCase w e = e ->
             same_up_to_case (toUpperCase w) e (after_final_dot (name f)) ->
   trace (exec change_handler w) = trace w ++ reset ++ after_type_check w f).
Proof.
  intros Hv Hf. split.
  - intros Hno.
    assert (Hi : includes (ACCEPTED_FILE_TYPES w)
                   (toUpperCase w (after_final_dot (name f))) = false).
    { apply includes_not_In. intros Hin.
      apply (Hno _ Hin). right. left. reflexivity. }
    unfold exec. rewrite (change_handler_selected w f Hv Hf), Hi. cbn [snd negb].
    apply (rejected_selected w f).
  - intros e Hin Hup Hsame.
    rewrite (trace_selected w f Hv Hf).
    replace (includes _ _) with true; [reflexivity|].
    symmetry. apply includes_In.
    destruct Hsame as [H|[H|H]].
    + now rewrite <- H, Hup.
    + now rewrite <- H.
    + rewrite <- H, Hup in *. now rewrite Hup.
Qed.

(** C4: a selected file of an accepted type whose size is strictly above
    [MAX_AUDIO_FILE_SIZE["Value"]] ends the pass in the error state with the
    message that names [MAX_AUDIO_FILE_SIZE["Name"]], and no request is
    sent; a file whose size is exactly the limit passes, and is uploaded. *)
Theorem size_check (w : world) (f : File) :
  value (uploadFileInput w) <> "" ->
  hd_error (files (uploadFileInput w)) = Some f ->
  In (toUpperCase w (after_final_dot (name f))) (ACCEPTED_FILE_TYPES w) ->
  ((Z.of_N (size f) > Value (MAX_AUDIO_FILE_SIZE w))%Z ->
   textContent (outcomeText (exec change_handler w))
     = ("File is too big; please select a file that is smaller than "
        ++ Name (MAX_AUDIO_FILE_SIZE w) ++ ".")%string
   /\ error_state (outcomeText (exec change_handler w)) = true
   /\ requests (trace (exec change_handler w)) = requests (trace w)
   /\ pending (exec change_handler w) = pending w)
  /\
  (Z.of_N (size f) = Value (MAX_AUDIO_FILE_SIZE w) ->
   trace (exec change_handler w)
     = trace w ++ reset ++ [Text (str ""); Ajax (upload_request f)]
   /\ requests (trace (exec change_handler w)) = requests (trace w) ++ [upload_request f]).
Proof.
  intros Hv Hf Hin. apply includes_In in Hin. split.
  - intros Hgt. apply Z.gtb_gt in Hgt.
    unfold exec. rewrite (change_handler_selected w f Hv Hf), Hin, Hgt. cbn [snd negb].
    apply (rejected_selected w f).
  - intros Heq.
    assert (Hle : (Z.of_N (size f) >? Value (MAX_AUDIO_FILE_SIZE w))%Z = false).
    { rewrite Z.gtb_ltb. apply Z.ltb_ge. lia. }
    rewrite (trace_selected w f Hv Hf), Hin. unfold after_type_check. rewrite Hle.
    split; [reflexivity|].
    rewrite !requests_app. reflexivity.
Qed.

(** C9: for a selected file whose name has no '.', [split] and [pop] yield
    the whole name, so the type check looks the uppercased full name up in
    the allow-list: the file passes the check exactly when that name is a
    member, and is rejected with the type message exactly when it is not. *)
Theorem name_without_dot (w : world) (f : File) :
  value (uploadFileInput w) <> "" ->
  hd_error (files (uploadFileInput w)) = Some f ->
  contains "." (name f) = false ->
  pop (split "." (name f)) = Some (name f)
  /\ extension (name f) w = (Return (toUpperCase w (name f)), w)
  /\ (In (toUpperCase w (name f)) (ACCEPTED_FILE_TYPES w) <->
      trace (exec change_handler w) = trace w ++ reset ++ after_type_check w f)
  /\ (~ In (toUpperCase w (name f)) (ACCEPTED_FILE_TYPES w) <->
      trace (exec change_handler w) = trace w ++ reset ++ type_rejection w).
Proof.
  intros Hv Hf Hdot.
  pose proof (after_final_dot_no_dot _ Hdot) as Ha.
  split; [now rewrite pop_split_dot, Ha|].
  split; [now rewrite extension_spec, Ha|].
  rewrite (trace_selected w f Hv Hf), Ha.
  rewrite <- includes_not_In, <- includes_In.
  destruct (includes _ _); split; split; intros H; try reflexivity; try discriminate.
  - apply app_inv_head in H. apply app_inv_head in H.
    symmetry in H. now apply type_rejection_not_after in H.
  - apply app_inv_head in H. apply app_inv_head in H.
    now apply type_rejection_not_after in H.
Qed.

Lemma shown_renders (j : json) (s : string) :
  shown j = Some s -> renders (Some j) = true.
Proof.
  destruct j; cbn [shown renders]; try reflexivity; now intros ->.
Qed.

Lemma textContent_set_text_shown (j : json) (s : string) (e : element) :
  shown j = Some s -> textContent (set_text (Some j) e) = s.
Proof.
  destruct j; cbn [shown set_text textContent]; try (now intros [= ->]);
    now intros ->.
Qed.

Lemma nth_error_lt {A : Type} (l : list A) (k : nat) :
  k < length l -> exists x, nth_error l k = Some x.
Proof.
  intros H. destruct (nth_error l k) as [x|] eqn:E; [now exists x|].
  apply nth_error_None in E. lia.
Qed.

(** ** The reply and the event loop *)

Section PageFacts.

Variable JSON_parse : string -> option json.

(** The callback, case by case. *)
Lemma on_upload_done_spec (body : string) (w : world) :
  on_upload_done JSON_parse body w =
  match JSON_parse body with
  | None => (Throw SyntaxError, w)
  | Some JNull => (Throw TypeError, w)
  | Some d =>
      if renders (field d "msg") then
        if strict_eq_string (field d "outcome") "error"
        then (Return tt, emits [Text (field d "msg"); AddClass "error-text"] w)
        else (if assignable (field d "url") then Return tt else Throw TypeError,
              emits [Text (field d "msg"); AddClass "success-text";
                     Href (field d "url")] w)
      else (Throw TypeError, emits [Text (field d "msg")] w)
  end.
Proof.
  unfold on_upload_done, parse, bind, text, addClass, set_href, do.
  destruct (JSON_parse body) as [d|]; [|reflexivity].
  destruct d; cbn -[lookup strict_eq_string renders assignable]; try reflexivity.
  destruct (strict_eq_string _ _), (renders _); try reflexivity;
    cbn -[lookup assignable]; now destruct (assignable _).
Qed.

Lemma on_upload_done_error (body : string) (d : json) (w : world) :
  JSON_parse body = Some d ->
  field d "outcome" = str "error" ->
  renders (field d "msg") = true ->
  on_upload_done JSON_parse body w =
  (Return tt, emits [Text (field d "msg"); AddClass "error-text"] w).
Proof.
  intros Hp Ho Hr. rewrite on_upload_done_spec, Hp.
  assert (E : strict_eq_string (field d "outcome") "error" = true)
    by now apply strict_eq_string_true.
  destruct d; try discriminate Ho. now rewrite Hr, E.
Qed.

Lemma on_upload_done_other (body : string) (d : json) (w : world) :
  JSON_parse body = Some d ->
  d <> JNull ->
  field d "outcome" <> str "error" ->
  renders (field d "msg") = true ->
  on_upload_done JSON_parse body w =
  (if assignable (field d "url") then Return tt else Throw TypeError,
   emits [Text (field d "msg"); AddClass "success-text"; Href (field d "url")] w).
Proof.
  intros Hp Hn Ho Hr. rewrite on_upload_done_spec, Hp.
  assert (E : strict_eq_string (field d "outcome") "error" = false).
  { destruct (strict_eq_string _ _) eqn:E; [|reflexivity].
    now apply strict_eq_string_true in E. }
  destruct d; try congruence; now rewrite Hr, E.
Qed.

Lemma fire_upload_done (data : string) (w : world) :
  fire JSON_parse [upload_done] data w =
  match on_upload_done JSON_parse data w with
  | (Return _, w') => (Return tt, w')
  | (Throw e, w') => (Throw e, w')
  end.
Proof.
  cbn [fire run_callback]. unfold bind, ret.
  now destruct (on_upload_done JSON_parse data w) as [[[]|e] w'].
Qed.

Lemma on_upload_done_calls (data : string) (w : world) :
  snd (on_upload_done JSON_parse data w) = emits (reply_calls JSON_parse data) w.
Proof.
  rewrite on_upload_done_spec. unfold reply_calls.
  destruct (JSON_parse data) as [d|]; [|reflexivity].
  destruct d; try reflexivity.
  destruct (renders _); [|reflexivity].
  now destruct (strict_eq_string _ _).
Qed.

Lemma reply_always_exclusive (data : string) (e : element) :
  unstyled e = true -> always_exclusive e (reply_calls JSON_parse data) = true.
Proof.
  intros H. unfold reply_calls.
  destruct (JSON_parse data) as [d|]; [|points e].
  destruct d; cbn [field renders strict_eq_string]; try points e.
  destruct (renders _); [|points e].
  destruct (strict_eq_string _ _); points e.
Qed.

Lemma snd_fire_upload_done (data : string) (w : world) :
  snd (fire JSON_parse [upload_done] data w) = emits (reply_calls JSON_parse data) w.
Proof.
  rewrite fire_upload_done, <- on_upload_done_calls.
  now destruct (on_upload_done JSON_parse data w) as [[[]|e] w'].
Qed.

Lemma step_callbacks_of_script (w : world) (ev : event) :
  callbacks_of_script w -> callbacks_of_script (snd (step JSON_parse w ev)).
Proof.
  unfold callbacks_of_script. intros H. destruct ev as [i|k data|k]; cbn [step].
  - fold (exec change_handler (set_input i w)).
    rewrite pending_change_handler. apply Forall_app. split; [exact H|].
    destruct (valid_file _); repeat constructor.
  - destruct (nth_error (pending w) k) as [x|] eqn:Hk; [|exact H].
    apply nth_error_In in Hk. rewrite Forall_forall in H.
    destruct (H x Hk) as [Hd _]. rewrite Hd, snd_fire_upload_done, pending_emits.
    cbn [pending set_pending]. apply Forall_remove_nth. now apply Forall_forall.
  - destruct (nth_error (pending w) k) as [x|] eqn:Hk; [|exact H].
    apply nth_error_In in Hk. rewrite Forall_forall in H.
    destruct (H x Hk) as [_ Hf]. rewrite Hf. cbn [fire ret snd pending set_pending].
    apply Forall_remove_nth. now apply Forall_forall.
Qed.

Lemma run_callbacks_of_script (evs : list event) (w : world) :
  callbacks_of_script w -> callbacks_of_script (run JSON_parse w evs).
Proof.
  revert w. induction evs as [|ev evs IH]; intros w H; [exact H|].
  apply IH. now apply step_callbacks_of_script.
Qed.

Lemma step_one_at_a_time (w : world) (ev : event) :
  idle_or_waiting w ->
  match ev with Change _ => pending w = [] | _ => True end ->
  exists fs,
    trace (snd (step JSON_parse w ev)) = trace w ++ fs
    /\ outcomeText (snd (step JSON_parse w ev)) = replay (outcomeText w) fs
    /\ always_exclusive (outcomeText w) fs = true
    /\ idle_or_waiting (snd (step JSON_parse w ev)).
Proof.
  intros Hinv Hguard.
  pose proof (idle_or_waiting_exclusive w Hinv) as Hex.
  assert (Hstay : exists fs,
             trace w = trace w ++ fs /\ outcomeText w = replay (outcomeText w) fs
             /\ always_exclusive (outcomeText w) fs = true /\ idle_or_waiting w).
  { exists []. rewrite app_nil_r, always_exclusive_nil. now repeat split. }
  destruct ev as [i|k data|k]; cbn [step].
  - set (w1 := set_input i w). fold (exec change_handler w1).
    destruct (change_handler_calls w1) as [Ht Hd].
    exists (pass_calls w1). split; [exact Ht|]. split; [exact Hd|].
    pose proof (pass_always_exclusive w1 Hex) as Hall.
    split; [exact Hall|].
    unfold idle_or_waiting. rewrite pending_change_handler, Hd.
    change (pending w1) with (pending w). rewrite Hguard. cbn [app].
    destruct (valid_file w1) as [f|] eqn:Hvalid.
    + right. eexists. split; [reflexivity|]. repeat split.
      now apply (pass_unstyled_when_valid w1 f).
    + left. split; [reflexivity|].
      apply (always_exclusive_prefix (outcomeText w1) (pass_calls w1) []).
      now rewrite app_nil_r.
  - destruct Hinv as [[Hp _]|(x & Hp & Hdone & _ & Hun)]; rewrite Hp.
    + destruct k; exact Hstay.
    + destruct k as [|k]; cbn [nth_error]; [|destruct k; exact Hstay].
      rewrite Hdone, snd_fire_upload_done. cbn [remove_nth].
      exists (reply_calls JSON_parse data).
      rewrite trace_emits, outcomeText_emits.
      pose proof (reply_always_exclusive data _ Hun) as Hall.
      repeat split; [exact Hall|].
      left. rewrite pending_emits, outcomeText_emits. split; [reflexivity|].
      apply (always_exclusive_prefix _ _ []). now rewrite app_nil_r.
  - destruct Hinv as [[Hp _]|(x & Hp & _ & Hfail & Hun)]; rewrite Hp.
    + destruct k; exact Hstay.
    + destruct k as [|k]; cbn [nth_error]; [|destruct k; exact Hstay].
      rewrite Hfail. cbn [fire ret snd remove_nth].
      exists []. rewrite app_nil_r, always_exclusive_nil.
      repeat split; [exact Hex|]. left. split; [reflexivity|exact Hex].
Qed.

Lemma run_one_at_a_time (evs : list event) (w : world) :
  idle_or_waiting w ->
  sequential JSON_parse w evs = true ->
  exists fs,
    trace (run JSON_parse w evs) = trace w ++ fs
    /\ always_exclusive (outcomeText w) fs = true.
Proof.
  revert w. induction evs as [|ev evs IH]; intros w Hinv Hseq.
  - exists []. rewrite app_nil_r, always_exclusive_nil.
    split; [reflexivity|now apply idle_or_waiting_exclusive].
  - cbn [sequential] in Hseq. apply andb_true_iff in Hseq as [Hg Hseq].
    destruct (step_one_at_a_time w ev Hinv) as (fs1 & Ht1 & Hd1 & Ha1 & Hinv1).
    { destruct ev; [|exact I|exact I]. now destruct (pending w). }
    destruct (IH _ Hinv1 Hseq) as (fs2 & Ht2 & Ha2).
    exists (fs1 ++ fs2). cbn [run fold_left]. fold (run JSON_parse).
    change (fold_left _ evs ?x) with (run JSON_parse x evs).
    rewrite Ht2, Ht1, <- app_assoc. split; [reflexivity|].
    rewrite always_exclusive_app, Ha1. now rewrite <- Hd1.
Qed.

(** The reply to a request in flight reaches the callback. *)
Lemma step_reply (w : world) (k : nat) (body : string) :
  callbacks_of_script w ->
  k < length (pending w) ->
  step JSON_parse w (Done k body) =
  match on_upload_done JSON_parse body (set_pending (remove_nth k (pending w)) w) with
  | (Return _, w') => (Return tt, w')
  | (Throw e, w') => (Throw e, w')
  end.
Proof.
  intros Hcb Hk. destruct (nth_error_lt _ _ Hk) as [x Hx].
  unfold callbacks_of_script in Hcb. rewrite Forall_forall in Hcb.
  destruct (Hcb x (nth_error_In _ _ Hx)) as [Hd _].
  cbn [step]. now rewrite Hx, Hd, fire_upload_done.
Qed.

Lemma run_reachable (w0 : world) (evs : list event) :
  pending w0 = [] -> callbacks_of_script (run JSON_parse w0 evs).
Proof.
  intros Hp. apply run_callbacks_of_script.
  unfold callbacks_of_script. rewrite Hp. constructor.
Qed.

(** C5, as the code has it: when the reply to a request in flight parses to
    an object whose outcome is the string "error" and whose msg has a text
    (any string, which is then shown exactly), and the element does not
    carry the success class when the reply arrives, the event loop runs the
    callback, which calls [text] with msg and then adds the error class,
    and nothing else: the element ends in the error state showing msg, and
    no navigation occurs. *)
Theorem error_reply (w0 : world) (evs : list event) (k : nat)
    (body : string) (d j : json) (s : string) :
  pending w0 = [] ->
  k < length (pending (run JSON_parse w0 evs)) ->
  JSON_parse body = Some d ->
  field d "outcome" = str "error" ->
  field d "msg" = Some j ->
  shown j = Some s ->
  has_class "success-text" (outcomeText (run JSON_parse w0 evs)) = false ->
  let w := run JSON_parse w0 evs in
  let w' := snd (step JSON_parse w (Done k body)) in
  fst (step JSON_parse w (Done k body)) = Return tt
  /\ trace w' = trace w ++ [Text (Some j); AddClass "error-text"]
  /\ textContent (outcomeText w') = s
  /\ (forall m, j = JStr m -> textContent (outcomeText w') = m)
  /\ error_state (outcomeText w') = true
  /\ navigations (trace w') = navigations (trace w).
Proof.
  intros Hp Hk Hparse Ho Hm Hs Hclass. cbv zeta.
  rewrite (step_reply _ k body (run_reachable w0 evs Hp) Hk).
  rewrite (on_upload_done_error body d _ Hparse Ho);
    [|rewrite Hm; now apply (shown_renders j s)].
  rewrite Hm. cbn [fst snd].
  rewrite outcomeText_emits, trace_emits, navigations_app.
  change (trace (set_pending ?p ?x)) with (trace x).
  change (outcomeText (set_pending ?p ?x)) with (outcomeText x).
  assert (Ht : textContent
                 (replay (outcomeText (run JSON_parse w0 evs))
                    [Text (Some j); AddClass "error-text"]) = s).
  { unfold replay. cbn [fold_left apply_effect].
    rewrite textContent_add_class. now apply textContent_set_text_shown. }
  split; [reflexivity|]. split; [reflexivity|]. split; [exact Ht|].
  split; [intros m ->; cbn [shown json_to_string] in Hs; congruence|].
  split; [|cbn; now rewrite app_nil_r].
  dom. now rewrite Hclass.
Qed.

(** C6, as the code has it: when the reply to a request in flight parses to
    a value other than [null] whose outcome is not the string "error"
    (absent, or any other value) and whose msg has a text (any string,
    which is then shown exactly), and the element does not carry the error
    class when the reply arrives, the event loop runs the callback, which
    calls [text] with msg, adds the success class and then assigns the
    reply's url to [window.location.href]: the element is in the success
    state showing msg when the assignment, the last call, is made. *)
Theorem success_reply (w0 : world) (evs : list event) (k : nat)
    (body : string) (d j : json) (s : string) :
  pending w0 = [] ->
  k < length (pending (run JSON_parse w0 evs)) ->
  JSON_parse body = Some d ->
  d <> JNull ->
  field d "outcome" <> str "error" ->
  field d "msg" = Some j ->
  shown j = Some s ->
  has_class "error-text" (outcomeText (run JSON_parse w0 evs)) = false ->
  let w := run JSON_parse w0 evs in
  let w' := snd (step JSON_parse w (Done k body)) in
  trace w' = trace w ++ [Text (Some j); AddClass "success-text"; Href (field d "url")]
  /\ textContent (outcomeText w') = s
  /\ (forall m, j = JStr m -> textContent (outcomeText w') = m)
  /\ success_state (outcomeText w') = true
  /\ outcomeText w' = replay (outcomeText w) [Text (Some j); AddClass "success-text"]
  /\ navigations (trace w') = navigations (trace w) ++ [field d "url"]
  /\ (forall u, field d "url" = str u ->
      locations (trace w') = locations (trace w) ++ [u]).
Proof.
  intros Hp Hk Hparse Hn Ho Hm Hs Hclass. cbv zeta.
  rewrite (step_reply _ k body (run_reachable w0 evs Hp) Hk).
  rewrite (on_upload_done_other body d _ Hparse Hn Ho);
    [|rewrite Hm; now apply (shown_renders j s)].
  rewrite Hm. unfold locations.
  assert (Hsnd : forall (r : result unit) (x : world),
             snd (match (r, x) with
                  | (Return _, w') => (Return tt, w')
                  | (Throw e, w') => (Throw e, w')
                  end) = x) by (now intros [[]|e] x).
  rewrite Hsnd.
  rewrite outcomeText_emits, trace_emits, navigations_app, flat_map_app.
  change (trace (set_pending ?p ?x)) with (trace x).
  change (outcomeText (set_pending ?p ?x)) with (outcomeText x).
  assert (Ht : textContent
                 (replay (outcomeText (run JSON_parse w0 evs))
                    [Text (Some j); AddClass "success-text"; Href (field d "url")]) = s).
  { unfold replay. cbn [fold_left apply_effect].
    rewrite textContent_add_class. now apply textContent_set_text_shown. }
  split; [reflexivity|]. split; [exact Ht|].
  split; [intros m ->; cbn [shown json_to_string] in Hs; congruence|].
  split; [dom; now rewrite Hclass|].
  split; [reflexivity|]. split; [reflexivity|].
  intros u ->. reflexivity.
Qed.

(** C10, as the code has it: when the reply to a request in flight parses
    to a value other than [null] whose outcome is not the string "error"
    and whose msg [text] can set (it is absent, [null], or has a text), the
    assignment to [window.location.href] is made whatever the reply's url
    is, [undefined] included when the reply has no such field, and it is
    the last call of the callback, after the text has been set to msg and
    the success class added (the success state, unless the element carried
    the error class when the reply arrived). *)
Theorem navigation_unconditional (w0 : world) (evs : list event) (k : nat)
    (body : string) (d : json) :
  pending w0 = [] ->
  k < length (pending (run JSON_parse w0 evs)) ->
  JSON_parse body = Some d ->
  d <> JNull ->
  field d "outcome" <> str "error" ->
  renders (field d "msg") = true ->
  let w := run JSON_parse w0 evs in
  let w' := snd (step JSON_parse w (Done k body)) in
  let shown_before := replay (outcomeText w) [Text (field d "msg"); AddClass "success-text"] in
  trace w'
    = trace w ++ [Text (field d "msg"); AddClass "success-text"; Href (field d "url")]
  /\ navigations (trace w') = navigations (trace w) ++ [field d "url"]
  /\ (field d "url" = None ->
      navigations (trace w') = navigations (trace w) ++ [None]
      /\ locations (trace w') = locations (trace w) ++ ["undefined"])
  /\ has_class "success-text" shown_before = true
  /\ (has_class "error-text" (outcomeText w) = false ->
      success_state shown_before = true)
  /\ (forall j s, field d "msg" = Some j -> shown j = Some s ->
      textContent shown_before = s).
Proof.
  intros Hp Hk Hparse Hn Ho Hr. cbv zeta.
  rewrite (step_reply _ k body (run_reachable w0 evs Hp) Hk).
  rewrite (on_upload_done_other body d _ Hparse Hn Ho Hr). unfold locations.
  assert (Hsnd : forall (r : result unit) (x : world),
             snd (match (r, x) with
                  | (Return _, w') => (Return tt, w')
                  | (Throw e, w') => (Throw e, w')
                  end) = x) by (now intros [[]|e] x).
  rewrite Hsnd, trace_emits, navigations_app, flat_map_app.
  change (trace (set_pending ?p ?x)) with (trace x).
  split; [reflexivity|]. split; [reflexivity|].
  split; [intros ->; now split|].
  split; [dom|]. split.
  - intros Hclass. dom. now rewrite Hclass.
  - intros j s -> Hs. unfold replay. cbn [fold_left apply_effect].
    rewrite textContent_add_class. now apply textContent_set_text_shown.
Qed.

(** C7, as the code has it: every pass of the change handler starts with
    the three calls that clear the text and remove both classes, after
    which [#outcome-text] is empty and carries neither; the text and the
    style state a pass ends with do not depend on what [#outcome-text] was
    before it; and along any run of the page that starts with the element
    not carrying both classes and no request in flight, and in which the
    selection is not changed while a request is in flight, the element
    never carries both classes, at any point between two calls. *)
Theorem reset_then_exclusive (w : world) (evs : list event) :
  pending w = [] ->
  exclusive (outcomeText w) = true ->
  sequential JSON_parse w evs = true ->
  (forall w', exists rest,
      trace (exec change_handler w')
        = trace w' ++ [Text (str ""); RemoveClass "error-text"; RemoveClass "success-text"]
                   ++ rest
      /\ textContent (replay (outcomeText w') reset) = ""
      /\ unstyled (replay (outcomeText w') reset) = true)
  /\ (forall w' e,
      textContent (outcomeText (exec change_handler (set_display e w')))
        = textContent (outcomeText (exec change_handler w'))
      /\ error_state (outcomeText (exec change_handler (set_display e w')))
        = error_state (outcomeText (exec change_handler w'))
      /\ success_state (outcomeText (exec change_handler (set_display e w')))
        = success_state (outcomeText (exec change_handler w')))
  /\ (forall p q,
      trace (run JSON_parse w evs) = trace w ++ p ++ q ->
      exclusive (replay (outcomeText w) p) = true).
Proof.
  intros Hp Hex Hseq. split; [|split].
  - intros w'. destruct (change_handler_calls w') as [Ht _].
    unfold pass_calls in Ht. eexists. split; [exact Ht|]. split; dom.
  - intros w' e.
    destruct (change_handler_calls w') as [_ ->].
    destruct (change_handler_calls (set_display e w')) as [_ ->].
    change (pass_calls (set_display e w')) with (pass_calls w').
    change (outcomeText (set_display e w')) with e.
    destruct (pass_display_fresh w' e (outcomeText w')) as (Htext & Herr & Hsucc).
    unfold error_state, success_state. now rewrite Htext, Herr, Hsucc.
  - intros p q Ht.
    destruct (run_one_at_a_time evs w) as (fs & Hfs & Hall);
      [left; now split|exact Hseq|].
    rewrite Hfs in Ht. apply app_inv_head in Ht. subst fs.
    now apply always_exclusive_prefix in Hall.
Qed.


End PageFacts.

(** ** The script at work *)

Example split_song : split "." "my.song.Wav" = ["my"; "song"; "Wav"].
Proof. reflexivity. Qed.

Example split_trailing_dot : split "." "song." = ["song"; ""].
Proof. reflexivity. Qed.

Example extension_song : extension (name song) page = (Return "WAV", page).
Proof. reflexivity. Qed.

Example pass_song :
  trace (exec change_handler (picked song page))
  = [Text (str ""); RemoveClass "error-text"; RemoveClass "success-text";
     Text (str ""); Ajax (upload_request song)].
Proof. reflexivity. Qed.

Example pass_notes :
  outcomeText (exec change_handler (picked notes page))
  = {| textContent :=
         "File uploaded not of accepted file type. Accepted: WAV,MP3,FLAC.";
       classList := ["error-text"] |}.
Proof. reflexivity. Qed.

Example run_song_ok :
  trace (run sample_parse page [Change (pick song); Done 0 ok_body])
  = [Text (str ""); RemoveClass "error-text"; RemoveClass "success-text";
     Text (str ""); Ajax (upload_request song);
     Text (str "done"); AddClass "success-text"; Href (str "/next")].
Proof. reflexivity. Qed.

(** ** The statements at the page above *)

Lemma no_file_selected_witness :
  value (uploadFileInput page) = ""
  /\ textContent (outcomeText (exec change_handler page)) = "You must select a file."
  /\ error_state (outcomeText (exec change_handler page)) = true
  /\ requests (trace (exec change_handler page)) = requests (trace page).
Proof.
  split; [reflexivity|].
  destruct (no_file_selected page) as (_ & Ht & He & Hr & _); [reflexivity|].
  exact (conj Ht (conj He Hr)).
Defined.

Lemma allow_list_check_witness :
  textContent (outcomeText (exec change_handler (picked notes page)))
    = bad_type_message (ACCEPTED_FILE_TYPES page)
  /\ trace (exec change_handler (picked song page))
     = trace page ++ reset ++ after_type_check (picked song page) song.
Proof.
  split.
  - refine (proj1 (proj1 (allow_list_check (picked notes page) notes _ _) _)).
    + vm_compute. discriminate.
    + reflexivity.
    + intros e He. vm_compute in He.
      destruct He as [<-|[<-|[<-|[]]]]; vm_compute;
        intros [H|[H|H]]; discriminate H.
  - refine (proj2 (allow_list_check (picked song page) song _ _) "WAV" _ _ _).
    + vm_compute. discriminate.
    + reflexivity.
    + vm_compute. tauto.
    + reflexivity.
    + left. reflexivity.
Defined.

(** C3 as it is written fails: with the allow-list in lower case, a file
    whose extension is, letter for letter, an entry of the list is rejected
    with the type message, and nothing is sent. *)
Lemma listed_extension_rejected :
  value (uploadFileInput page_lower) <> ""
  /\ hd_error (files (uploadFileInput page_lower))
     = Some {| name := "song.wav"; size := 1000 |}
  /\ after_final_dot "song.wav" = "wav"
  /\ In "wav" (ACCEPTED_FILE_TYPES page_lower)
  /\ trace (exec change_handler page_lower)
     = reset ++ [Text (str "File uploaded not of accepted file type. Accepted: wav,mp3.");
                 AddClass "error-text"]
  /\ error_state (outcomeText (exec change_handler page_lower)) = true
  /\ requests (trace (exec change_handler page_lower)) = [].
Proof.
  split; [vm_compute; discriminate|].
  split; [reflexivity|]. split; [reflexivity|].
  split; [vm_compute; tauto|].
  repeat split.
Defined.

Lemma size_check_witness :
  textContent (outcomeText (exec change_handler (picked above_limit page)))
    = "File is too big; please select a file that is smaller than 100 MB."
  /\ requests (trace (exec change_handler (picked above_limit page))) = []
  /\ requests (trace (exec change_handler (picked at_limit page)))
     = [upload_request at_limit].
Proof.
  assert (Hv : forall f, value (uploadFileInput (picked f page)) <> "")
    by (intros f; vm_compute; discriminate).
  assert (Hin : In (ascii_toUpperCase (after_final_dot "take.mp3")) (ACCEPTED_FILE_TYPES page))
    by (vm_compute; tauto).
  destruct (size_check (picked above_limit page) above_limit (Hv _) eq_refl Hin)
    as [Habove _].
  destruct (size_check (picked at_limit page) at_limit (Hv _) eq_refl Hin)
    as [_ Hat].
  destruct Habove as (Ht & _ & Hr & _); [vm_compute; reflexivity|].
  destruct Hat as [_ Hreq]; [reflexivity|].
  exact (conj Ht (conj Hr Hreq)).
Defined.

Lemma name_without_dot_witness :
  contains "." (name no_dot) = false
  /\ extension (name no_dot) (picked no_dot page) = (Return "FLAC", picked no_dot page)
  /\ (In "FLAC" (ACCEPTED_FILE_TYPES page) <->
      trace (exec change_handler (picked no_dot page))
      = trace page ++ reset ++ after_type_check (picked no_dot page) no_dot).
Proof.
  split; [reflexivity|].
  destruct (name_without_dot (picked no_dot page) no_dot) as (_ & He & Hi & _).
  - vm_compute. discriminate.
  - reflexivity.
  - reflexivity.
  - exact (conj He Hi).
Defined.

Lemma error_reply_witness :
  pending page = []
  /\ sample_parse error_body
     = Some (JObj [("outcome", JStr "error"); ("msg", JStr "bad format")])
  /\ outcomeText (run sample_parse page [Change (pick song); Done 0 error_body])
     = {| textContent := "bad format"; classList := ["error-text"] |}
  /\ error_state
       (outcomeText (snd (step sample_parse (run sample_parse page [Change (pick song)])
                            (Done 0 error_body)))) = true
  /\ navigations
       (trace (snd (step sample_parse (run sample_parse page [Change (pick song)])
                      (Done 0 error_body)))) = [].
Proof.
  split; [reflexivity|]. split; [reflexivity|]. split; [reflexivity|].
  destruct (error_reply sample_parse page [Change (pick song)] 0 error_body
              (JObj [("outcome", JStr "error"); ("msg", JStr "bad format")])
              (JStr "bad format") "bad format")
    as (_ & _ & _ & _ & He & Hn);
    [reflexivity|vm_compute; lia|reflexivity|reflexivity|reflexivity
    |reflexivity|reflexivity|].
  split; [exact He|exact Hn].
Defined.

Lemma success_reply_witness :
  pending page = []
  /\ sample_parse ok_body
     = Some (JObj [("outcome", JStr "ok"); ("msg", JStr "done"); ("url", JStr "/next")])
  /\ outcomeText (run sample_parse page [Change (pick song); Done 0 ok_body])
     = {| textContent := "done"; classList := ["success-text"] |}
  /\ success_state
       (outcomeText (snd (step sample_parse (run sample_parse page [Change (pick song)])
                            (Done 0 ok_body)))) = true
  /\ locations
       (trace (snd (step sample_parse (run sample_parse page [Change (pick song)])
                      (Done 0 ok_body)))) = ["/next"].
Proof.
  split; [reflexivity|]. split; [reflexivity|]. split; [reflexivity|].
  destruct (success_reply sample_parse page [Change (pick song)] 0 ok_body
              (JObj [("outcome", JStr "ok"); ("msg", JStr "done"); ("url", JStr "/next")])
              (JStr "done") "done")
    as (_ & _ & _ & Hs & _ & _ & Hl);
    [reflexivity|vm_compute; lia|reflexivity|discriminate|discriminate
    |reflexivity|reflexivity|reflexivity|].
  split; [exact Hs|]. exact (Hl "/next" eq_refl).
Defined.

Lemma navigation_unconditional_witness :
  pending page = []
  /\ trace (snd (step sample_parse (run sample_parse page [Change (pick song)])
                   (Done 0 ok_no_url_body)))
     = trace (run sample_parse page [Change (pick song)])
       ++ [Text (str "done"); AddClass "success-text"; Href None]
  /\ locations
       (trace (snd (step sample_parse (run sample_parse page [Change (pick song)])
                      (Done 0 ok_no_url_body)))) = ["undefined"].
Proof.
  split; [reflexivity|].
  destruct (navigation_unconditional sample_parse page [Change (pick song)] 0
              ok_no_url_body (JObj [("outcome", JStr "ok"); ("msg", JStr "done")]))
    as (Ht & _ & Hn & _);
    [reflexivity|vm_compute; lia|reflexivity|discriminate|discriminate|reflexivity|].
  split; [exact Ht|]. exact (proj2 (Hn eq_refl)).
Defined.

(** C5 as it is written fails: two uploads are in flight; the first is
    answered with a success whose url is a fragment of the page, so the
    page stays, showing the success class; the second is then answered
    with an error. The callback adds the error class to the element that
    still carries the success class: it is not in the error state. *)
Lemma error_reply_on_success :
  pending page = []
  /\ late_parse error_body
     = Some (JObj [("outcome", JStr "error"); ("msg", JStr "bad format")])
  /\ length (pending (run late_parse page
                        [Change (pick song); Change (pick song);
                         Done 0 fragment_body])) = 1
  /\ outcomeText (run late_parse page
                    [Change (pick song); Change (pick song);
                     Done 0 fragment_body; Done 0 error_body])
     = {| textContent := "bad format"; classList := ["success-text"; "error-text"] |}
  /\ error_state (outcomeText (run late_parse page
                    [Change (pick song); Change (pick song);
                     Done 0 fragment_body; Done 0 error_body]))
     = false.
Proof.
  repeat split.
Defined.

(** C6 as it is written fails: the user picks a valid file, then clears the
    selection while the upload is in flight, and the upload then succeeds.
    The callback adds the success class to the element that the second pass
    left in the error state: it is not in the success state. *)
Lemma success_reply_on_error :
  pending page = []
  /\ sample_parse ok_body
     = Some (JObj [("outcome", JStr "ok"); ("msg", JStr "done"); ("url", JStr "/next")])
  /\ outcomeText (run sample_parse page
                    [Change (pick song); Change {| value := ""; files := [] |};
                     Done 0 ok_body])
     = {| textContent := "done"; classList := ["error-text"; "success-text"] |}
  /\ success_state (outcomeText (run sample_parse page
                    [Change (pick song); Change {| value := ""; files := [] |};
                     Done 0 ok_body]))
     = false.
Proof.
  repeat split.
Defined.

(** C10 as it is written fails: the reply is a success whose msg is an
    object with a field [toString]. The call of [text] empties the element
    and throws a [TypeError]; the success class is not added and nothing is
    assigned to [window.location.href]. *)
Lemma no_assignment_when_text_throws :
  late_parse odd_body
    = Some (JObj [("outcome", JStr "ok"); ("msg", JObj [("toString", JNum "1")]);
                  ("url", JStr "/next")])
  /\ fst (step late_parse waiting (Done 0 odd_body)) = Throw TypeError
  /\ trace (snd (step late_parse waiting (Done 0 odd_body)))
     = trace waiting ++ [Text (Some (JObj [("toString", JNum "1")]))]
  /\ outcomeText (snd (step late_parse waiting (Done 0 odd_body)))
     = {| textContent := ""; classList := [] |}
  /\ navigations (trace (snd (step late_parse waiting (Done 0 odd_body)))) = [].
Proof.
  repeat split.
Defined.

Lemma reset_then_exclusive_witness :
  sequential sample_parse page one_by_one = true
  /\ (forall p q,
      trace (run sample_parse page one_by_one) = trace page ++ p ++ q ->
      exclusive (replay (outcomeText page) p) = true).
Proof.
  split; [reflexivity|].
  exact (proj2 (proj2 (reset_then_exclusive sample_parse page one_by_one
                         eq_refl eq_refl eq_refl))).
Defined.

(** C7 as it is written fails: the user picks a valid file, then one of a
    type that is not accepted while the upload is in flight, and the
    upload then succeeds. The callback adds the success class to the
    element that the second pass left in the error state, and
    [#outcome-text] carries both classes. *)
Lemma both_classes_after_late_reply :
  pending page = []
  /\ exclusive (outcomeText page) = true
  /\ outcomeText (run sample_parse page
                    [Change (pick song); Change (pick notes); Done 0 ok_body])
     = {| textContent := "done"; classList := ["error-text"; "success-text"] |}
  /\ exclusive (outcomeText (run sample_parse page
                    [Change (pick song); Change (pick notes); Done 0 ok_body]))
     = false.
Proof.
  repeat split.
Defined.


(** ** More on the validation pass *)

Lemma contains_dot_app (p e : string) : contains "." (p ++ String "." e) = true.
Proof.
  induction p as [|c p IH]; simpl; [reflexivity|].
  rewrite IH. apply orb_true_r.
Qed.

Lemma after_final_dot_app (p e : string) :
  contains "." e = false -> after_final_dot (p ++ String "." e) = e.
Proof.
  intros He. induction p as [|c p IH]; simpl.
  - now rewrite He.
  - now rewrite contains_dot_app.
Qed.

Lemma upper_ascii_dot (c : ascii) : Ascii.eqb (upper_ascii c) "." = Ascii.eqb c ".".
Proof.
  destruct c as [[] [] [] [] [] [] [] []]; reflexivity.
Qed.

Lemma contains_dot_toUpperCase (s : string) :
  contains "." (ascii_toUpperCase s) = contains "." s.
Proof.
  induction s as [|c r IH]; simpl; [reflexivity|].
  now rewrite upper_ascii_dot, IH.
Qed.

Lemma toUpperCase_after_final_dot (s : string) :
  ascii_toUpperCase (after_final_dot s) = after_final_dot (ascii_toUpperCase s).
Proof.
  induction s as [|c r IH]; simpl; [reflexivity|].
  rewrite contains_dot_toUpperCase, upper_ascii_dot.
  destruct (contains "." r); [exact IH|].
  now destruct (Ascii.eqb c ".").
Qed.

Lemma app_one_neq {A : Type} (l : list A) (x : A) : l ++ [x] <> l.
Proof.
  intros H. apply (f_equal (@length A)) in H.
  rewrite length_app in H. simpl in H. lia.
Qed.

(** The requests of a pass, in the vocabulary of [valid_file]. *)
Lemma requests_pass (w : world) :
  requests (trace (exec change_handler w)) =
  requests (trace w) ++
  match valid_file w with
  | Some f => [upload_request f]
  | None => []
  end.
Proof.
  destruct (change_handler_calls w) as [-> _].
  unfold pass_calls, valid_file, after_type_check, type_rejection.
  rewrite !requests_app.
  destruct (String.eqb _ _); [reflexivity|].
  destruct (hd_error _) as [f|]; [|reflexivity].
  destruct (includes _ _); cbn [andb]; [|reflexivity].
  rewrite Z.gtb_ltb, Z.leb_antisym.
  now destruct (Z.ltb _ _).
Qed.

(** X1: only the last segment of a file name counts. For a selected file
    named [p.e], where [e] has no '.', the extension the handler computes is
    [e] in upper case, whatever [p] is (it may itself contain dots, or be
    empty), and the file passes the type check exactly when that is in the
    allow-list. *)
Theorem last_segment_decides (w : world) (f : File) (p e : string) :
  value (uploadFileInput w) <> "" ->
  hd_error (files (uploadFileInput w)) = Some f ->
  name f = (p ++ String "." e)%string ->
  contains "." e = false ->
  extension (name f) w = (Return (toUpperCase w e), w)
  /\ (In (toUpperCase w e) (ACCEPTED_FILE_TYPES w) <->
      trace (exec change_handler w) = trace w ++ reset ++ after_type_check w f).
Proof.
  intros Hv Hf Hn He.
  assert (Ha : after_final_dot (name f) = e) by (rewrite Hn; now apply after_final_dot_app).
  split; [now rewrite extension_spec, Ha|].
  rewrite (trace_selected w f Hv Hf), Ha, <- includes_In.
  destruct (includes _ _); split; intros H; try reflexivity; try discriminate.
  apply app_inv_head in H. apply app_inv_head in H.
  now apply type_rejection_not_after in H.
Qed.

(** X2: the handler returns normally exactly when the page presents no path
    or at least one file. In particular no file name, the empty one
    included, makes [split], [pop] and [toUpperCase] throw. *)
Theorem pass_returns_iff (w : world) :
  fst (change_handler w) = Return tt <->
  (value (uploadFileInput w) = "" \/ files (uploadFileInput w) <> []).
Proof.
  destruct (String.eqb (value (uploadFileInput w)) "") eqn:Hv.
  - apply String.eqb_eq in Hv. rewrite (change_handler_empty w Hv). cbn [fst]. tauto.
  - apply String.eqb_neq in Hv.
    destruct (files (uploadFileInput w)) as [|f fs] eqn:Hf.
    + rewrite (change_handler_no_file w Hv Hf). cbn [fst].
      split; [discriminate|]. intros [H|H]; congruence.
    + assert (Hh : hd_error (files (uploadFileInput w)) = Some f) by now rewrite Hf.
      rewrite (change_handler_selected w f Hv Hh). cbn [fst].
      split; [right; discriminate|reflexivity].
Qed.

(** X3: of a selection of several files only the first is looked at. The
    calls, the element and the requests in flight after a pass are the same
    as if the first file had been selected alone. *)
Theorem only_first_file (w : world) (v : string) (f : File) (rest : list File) :
  trace (exec change_handler (selecting v (f :: rest) w))
    = trace (exec change_handler (selecting v [f] w))
  /\ outcomeText (exec change_handler (selecting v (f :: rest) w))
    = outcomeText (exec change_handler (selecting v [f] w))
  /\ pending (exec change_handler (selecting v (f :: rest) w))
    = pending (exec change_handler (selecting v [f] w)).
Proof.
  destruct (change_handler_calls (selecting v (f :: rest) w)) as [-> ->].
  destruct (change_handler_calls (selecting v [f] w)) as [-> ->].
  rewrite !pending_change_handler.
  repeat split.
Qed.

(** X4: the letter case of the file name does not matter. Two selected files
    of the same size whose extensions have the same upper-case form (as
    have those of two names that differ only in the case of their letters)
    leave the element in the same state, and one is uploaded exactly when
    the other is. *)
Theorem name_case_irrelevant (w : world) (v v' : string) (f g : File)
    (r r' : list File) :
  v <> "" -> v' <> "" ->
  toUpperCase w (after_final_dot (name f))
    = toUpperCase w (after_final_dot (name g)) ->
  size f = size g ->
  outcomeText (exec change_handler (selecting v (f :: r) w))
    = outcomeText (exec change_handler (selecting v' (g :: r') w))
  /\ (valid_file (selecting v (f :: r) w) = Some f <->
      valid_file (selecting v' (g :: r') w) = Some g).
Proof.
  intros Hv Hv' He Hs.
  apply String.eqb_neq in Hv, Hv'.
  split.
  - destruct (change_handler_calls (selecting v (f :: r) w)) as [_ ->].
    destruct (change_handler_calls (selecting v' (g :: r') w)) as [_ ->].
    unfold pass_calls, after_type_check, type_rejection.
    cbn [selecting set_input uploadFileInput value files hd_error
         toUpperCase ACCEPTED_FILE_TYPES MAX_AUDIO_FILE_SIZE outcomeText].
    rewrite Hv, Hv', He, Hs.
    destruct (includes _ _); [|reflexivity].
    destruct (_ >? _)%Z; reflexivity.
  - unfold valid_file.
    cbn [selecting set_input uploadFileInput value files hd_error
         toUpperCase ACCEPTED_FILE_TYPES MAX_AUDIO_FILE_SIZE].
    rewrite Hv, Hv', He, Hs.
    destruct (_ && _); split; intros H; try reflexivity; discriminate.
Qed.

(** X5: validation alone never reports success and never leaves the page:
    after any pass of the change handler the element does not carry the
    success class, and the pass assigns nothing to [window.location.href]. *)
Theorem pass_never_succeeds (w : world) :
  has_class "success-text" (outcomeText (exec change_handler w)) = false
  /\ navigations (trace (exec change_handler w)) = navigations (trace w).
Proof.
  destruct (change_handler_calls w) as [-> ->].
  unfold pass_calls, after_type_check, type_rejection.
  rewrite !navigations_app.
  destruct (String.eqb _ _); [split; [dom|cbn; now rewrite app_nil_r]|].
  destruct (hd_error _); [|split; [dom|cbn; now rewrite app_nil_r]].
  destruct (includes _ _); [|split; [dom|cbn; now rewrite app_nil_r]].
  destruct (_ >? _)%Z; split; try dom; cbn; now rewrite app_nil_r.
Qed.

Lemma error_state_not_unstyled (e : element) :
  error_state e = true -> unstyled e = false.
Proof.
  unfold error_state, unstyled.
  now destruct (has_class "error-text" e), (has_class "success-text" e).
Qed.

(** What the element shows after a pass that returns, by the verdict. *)
Lemma pass_display_by_verdict (w : world) :
  value (uploadFileInput w) = "" \/ files (uploadFileInput w) <> [] ->
  match valid_file w with
  | Some _ => unstyled (outcomeText (exec change_handler w)) = true
              /\ textContent (outcomeText (exec change_handler w)) = ""
  | None => error_state (outcomeText (exec change_handler w)) = true
  end.
Proof.
  intros Hc. destruct (change_handler_calls w) as [_ ->].
  unfold pass_calls, valid_file, after_type_check, type_rejection.
  destruct (String.eqb _ _) eqn:Hv; [dom|].
  apply String.eqb_neq in Hv.
  destruct (files (uploadFileInput w)) as [|f fs] eqn:Hf;
    [destruct Hc; congruence|]. cbn [hd_error].
  destruct (includes _ _); cbn [andb]; [|dom].
  rewrite Z.gtb_ltb, Z.leb_antisym.
  destruct (Z.ltb _ _); cbn [negb]; [dom|split; dom].
Qed.

(** X10: a rejection is never silent and an upload never comes with an
    error. When the page presents no path or at least one file, the pass
    leaves the element in the error state exactly when it sends no request,
    and with an empty text and neither class exactly when it sends one. *)
Theorem error_iff_no_request (w : world) :
  value (uploadFileInput w) = "" \/ files (uploadFileInput w) <> [] ->
  (error_state (outcomeText (exec change_handler w)) = true <->
   requests (trace (exec change_handler w)) = requests (trace w))
  /\ (unstyled (outcomeText (exec change_handler w)) = true
      /\ textContent (outcomeText (exec change_handler w)) = "" <->
      exists f, requests (trace (exec change_handler w))
                = requests (trace w) ++ [upload_request f]).
Proof.
  intros Hc. pose proof (pass_display_by_verdict w Hc) as Hd.
  rewrite requests_pass.
  destruct (valid_file w) as [f|].
  - destruct Hd as [Hu Ht]. split; split.
    + intros He. apply error_state_not_unstyled in He. congruence.
    + intros H. now apply app_one_neq in H.
    + intros _. now exists f.
    + intros _. now split.
  - split; split.
    + intros _. apply app_nil_r.
    + intros _. exact Hd.
    + intros [Hu _]. apply error_state_not_unstyled in Hd. congruence.
    + intros [g H]. apply app_inv_head in H. discriminate.
Qed.

(** X11: the size check is monotone and has no lower bound. If a selected
    file is uploaded, so is any selected file of the same name that is no
    larger, the empty file included. *)
Theorem smaller_file_uploaded (w : world) (v v' : string) (f g : File)
    (r r' : list File) :
  requests (trace (exec change_handler (selecting v (f :: r) w)))
    = requests (trace w) ++ [upload_request f] ->
  v' <> "" ->
  name g = name f ->
  (size g <= size f)%N ->
  requests (trace (exec change_handler (selecting v' (g :: r') w)))
    = requests (trace w) ++ [upload_request g].
Proof.
  intros Hf Hv' Hn Hs. apply String.eqb_neq in Hv'.
  rewrite requests_pass in Hf. rewrite requests_pass.
  change (trace (selecting ?a ?b w)) with (trace w) in *.
  apply app_inv_head in Hf.
  unfold valid_file in *.
  cbn [selecting set_input uploadFileInput value files hd_error
       toUpperCase ACCEPTED_FILE_TYPES MAX_AUDIO_FILE_SIZE] in *.
  rewrite Hv', Hn.
  destruct (String.eqb v ""); [discriminate|].
  destruct (includes _ _); cbn [andb] in *; [|discriminate].
  destruct (Z.leb_spec (Z.of_N (size f)) (Value (MAX_AUDIO_FILE_SIZE w)));
    [|discriminate].
  replace (Z.of_N (size g) <=? Value (MAX_AUDIO_FILE_SIZE w))%Z with true;
    [reflexivity|].
  symmetry. apply Z.leb_le. lia.
Qed.

(** X12: a pass never cancels or changes a request that is in flight: the
    requests in flight before it are still there after it, in the same
    order, followed by at most one new request. *)
Theorem pass_keeps_requests (w : world) :
  exists l, pending (exec change_handler w) = pending w ++ l /\ length l <= 1.
Proof.
  rewrite pending_change_handler.
  destruct (valid_file w); eexists; split; try reflexivity; simpl; lia.
Qed.

(** ** More on runs of the page *)

Lemma emits_app (fs gs : list effect) (w : world) :
  emits (fs ++ gs) w = emits gs (emits fs w).
Proof. apply fold_left_app. Qed.

Lemma config_emits (fs : list effect) (w : world) :
  toUpperCase (emits fs w) = toUpperCase w
  /\ ACCEPTED_FILE_TYPES (emits fs w) = ACCEPTED_FILE_TYPES w
  /\ MAX_AUDIO_FILE_SIZE (emits fs w) = MAX_AUDIO_FILE_SIZE w.
Proof.
  revert w. induction fs as [|f fs IH]; intros w; [now repeat split|].
  unfold emits in *; simpl. destruct (IH (emit f w)) as (-> & -> & ->).
  now repeat split.
Qed.

Lemma config_change_handler (w : world) :
  toUpperCase (exec change_handler w) = toUpperCase w
  /\ ACCEPTED_FILE_TYPES (exec change_handler w) = ACCEPTED_FILE_TYPES w
  /\ MAX_AUDIO_FILE_SIZE (exec change_handler w) = MAX_AUDIO_FILE_SIZE w.
Proof.
  unfold exec.
  destruct (String.eqb (value (uploadFileInput w)) "") eqn:Hv.
  - apply String.eqb_eq in Hv. rewrite (change_handler_empty w Hv). apply config_emits.
  - apply String.eqb_neq in Hv.
    destruct (files (uploadFileInput w)) as [|f fs] eqn:Hf.
    + rewrite (change_handler_no_file w Hv Hf). apply config_emits.
    + assert (Hh : hd_error (files (uploadFileInput w)) = Some f) by now rewrite Hf.
      rewrite (change_handler_selected w f Hv Hh). cbn [snd].
      destruct (negb _); [apply config_emits|].
      destruct (_ >? _)%Z; [apply config_emits|].
      unfold uploading.
      change (toUpperCase (set_pending ?p ?x)) with (toUpperCase x).
      change (ACCEPTED_FILE_TYPES (set_pending ?p ?x)) with (ACCEPTED_FILE_TYPES x).
      change (MAX_AUDIO_FILE_SIZE (set_pending ?p ?x)) with (MAX_AUDIO_FILE_SIZE x).
      apply config_emits.
Qed.

Lemma uploads_config (w w' : world) (ev : event) :
  toUpperCase w' = toUpperCase w ->
  ACCEPTED_FILE_TYPES w' = ACCEPTED_FILE_TYPES w ->
  MAX_AUDIO_FILE_SIZE w' = MAX_AUDIO_FILE_SIZE w ->
  uploads w' ev = uploads w ev.
Proof.
  intros Hu Ht Hm. destruct ev as [i| |]; try reflexivity.
  unfold uploads, valid_file.
  cbn [set_input uploadFileInput toUpperCase ACCEPTED_FILE_TYPES MAX_AUDIO_FILE_SIZE].
  now rewrite Hu, Ht, Hm.
Qed.

Lemma has_class_apply_foreign (c : string) (e : element) (f : effect) :
  own_call f = true -> c <> "error-text" -> c <> "success-text" ->
  has_class c (apply_effect e f) = has_class c e.
Proof.
  intros Hf He Hs. apply String.eqb_neq in He, Hs.
  destruct f as [v|c'|c'| |]; cbn [apply_effect own_call] in *; try reflexivity.
  - apply has_class_set_text.
  - rewrite has_class_remove_class.
    replace (String.eqb c' c) with false; [apply andb_true_r|].
    symmetry. apply String.eqb_neq. intros ->.
    rewrite He, Hs in Hf. discriminate.
  - rewrite has_class_add_class.
    replace (String.eqb c' c) with false; [apply orb_false_r|].
    symmetry. apply String.eqb_neq. intros ->.
    rewrite He, Hs in Hf. discriminate.
Qed.

Lemma has_class_replay_foreign (c : string) (fs : list effect) (e : element) :
  forallb own_call fs = true -> c <> "error-text" -> c <> "success-text" ->
  has_class c (replay e fs) = has_class c e.
Proof.
  intros Hfs He Hs. revert e. induction fs as [|f fs IH]; intros e; [reflexivity|].
  cbn [forallb] in Hfs. apply andb_true_iff in Hfs as [Hf Hfs].
  unfold replay in *. cbn [fold_left]. rewrite (IH Hfs).
  now apply has_class_apply_foreign.
Qed.

Lemma own_pass_calls (w : world) : forallb own_call (pass_calls w) = true.
Proof.
  unfold pass_calls, after_type_check, type_rejection.
  destruct (String.eqb _ _); [reflexivity|].
  destruct (hd_error _); [|reflexivity].
  destruct (includes _ _); [|reflexivity].
  now destruct (_ >? _)%Z.
Qed.

Section RunExtras.

Variable JSON_parse : string -> option json.

Lemma own_reply_calls (data : string) :
  forallb own_call (reply_calls JSON_parse data) = true
  /\ requests (reply_calls JSON_parse data) = [].
Proof.
  unfold reply_calls.
  destruct (JSON_parse data) as [d|]; [|now split].
  destruct d; cbn [field renders strict_eq_string]; try (now split).
  destruct (renders _); [|now split].
  now destruct (strict_eq_string _ _).
Qed.

(** Firing a list of callbacks on one reply makes the calls of the callback
    a number of times over. *)
Lemma fire_emits (cbs : list callback) (data : string) (w : world) :
  exists n,
    snd (fire JSON_parse cbs data w)
    = emits (concat (repeat (reply_calls JSON_parse data) n)) w.
Proof.
  revert w. induction cbs as [|[] cbs IH]; intros w.
  - now exists 0.
  - cbn [fire run_callback]. unfold bind.
    pose proof (on_upload_done_calls JSON_parse data w) as Hw.
    destruct (on_upload_done JSON_parse data w) as [[u|e] w']; cbn [snd] in Hw; subst w'.
    + destruct (IH (emits (reply_calls JSON_parse data) w)) as [n Hn].
      exists (S n). cbn [repeat concat]. now rewrite emits_app.
    + exists 1. cbn [repeat concat snd]. now rewrite app_nil_r.
Qed.

Lemma own_repeated_reply (data : string) (n : nat) :
  forallb own_call (concat (repeat (reply_calls JSON_parse data) n)) = true
  /\ requests (concat (repeat (reply_calls JSON_parse data) n)) = [].
Proof.
  destruct (own_reply_calls data) as [Ho Hr].
  induction n as [|n [IHo IHr]]; [now split|].
  cbn [repeat concat]. now rewrite forallb_app, requests_app, Ho, Hr, IHo, IHr.
Qed.

(** One turn of the event loop: its calls, and what they leave alone. *)
Lemma step_calls (w : world) (ev : event) :
  exists fs,
    trace (snd (step JSON_parse w ev)) = trace w ++ fs
    /\ outcomeText (snd (step JSON_parse w ev)) = replay (outcomeText w) fs
    /\ forallb own_call fs = true
    /\ requests fs = uploads w ev
    /\ toUpperCase (snd (step JSON_parse w ev)) = toUpperCase w
    /\ ACCEPTED_FILE_TYPES (snd (step JSON_parse w ev)) = ACCEPTED_FILE_TYPES w
    /\ MAX_AUDIO_FILE_SIZE (snd (step JSON_parse w ev)) = MAX_AUDIO_FILE_SIZE w.
Proof.
  assert (Hstay : exists fs,
             trace w = trace w ++ fs /\ outcomeText w = replay (outcomeText w) fs
             /\ forallb own_call fs = true /\ requests fs = []
             /\ toUpperCase w = toUpperCase w
             /\ ACCEPTED_FILE_TYPES w = ACCEPTED_FILE_TYPES w
             /\ MAX_AUDIO_FILE_SIZE w = MAX_AUDIO_FILE_SIZE w).
  { exists []. rewrite app_nil_r. now repeat split. }
  assert (Hfire : forall cbs arg p, exists fs,
             trace (snd (fire JSON_parse cbs arg (set_pending p w))) = trace w ++ fs
             /\ outcomeText (snd (fire JSON_parse cbs arg (set_pending p w)))
                = replay (outcomeText w) fs
             /\ forallb own_call fs = true /\ requests fs = []
             /\ toUpperCase (snd (fire JSON_parse cbs arg (set_pending p w)))
                = toUpperCase w
             /\ ACCEPTED_FILE_TYPES (snd (fire JSON_parse cbs arg (set_pending p w)))
                = ACCEPTED_FILE_TYPES w
             /\ MAX_AUDIO_FILE_SIZE (snd (fire JSON_parse cbs arg (set_pending p w)))
                = MAX_AUDIO_FILE_SIZE w).
  { intros cbs arg p. destruct (fire_emits cbs arg (set_pending p w)) as [n ->].
    destruct (own_repeated_reply arg n) as [Ho Hr].
    destruct (config_emits (concat (repeat (reply_calls JSON_parse arg) n))
                (set_pending p w)) as (Hu & Ht & Hm).
    eexists. rewrite trace_emits, outcomeText_emits, Hu, Ht, Hm.
    repeat split; [exact Ho|exact Hr]. }
  destruct ev as [i|k data|k]; cbn [step uploads].
  - fold (exec change_handler (set_input i w)).
    destruct (change_handler_calls (set_input i w)) as [Ht Hd].
    destruct (config_change_handler (set_input i w)) as (Hu & Hty & Hm).
    exists (pass_calls (set_input i w)).
    rewrite Ht, Hd, Hu, Hty, Hm. repeat split; [apply own_pass_calls|].
    apply (app_inv_head (requests (trace (set_input i w)))).
    now rewrite <- requests_app, <- Ht, requests_pass.
  - destruct (nth_error (pending w) k); [apply Hfire|exact Hstay].
  - destruct (nth_error (pending w) k); [apply Hfire|exact Hstay].
Qed.

(** X6: the script leaves the other classes of [#outcome-text] alone. Along
    any run of the page, whatever is selected and whatever the replies are,
    a class other than the error and the success class is on the element
    at the end exactly when it was at the start. *)
Theorem other_classes_kept (w : world) (evs : list event) (c : string) :
  c <> "error-text" -> c <> "success-text" ->
  has_class c (outcomeText (run JSON_parse w evs)) = has_class c (outcomeText w).
Proof.
  intros He Hs. revert w. induction evs as [|ev evs IH]; intros w; [reflexivity|].
  cbn [run fold_left]. change (fold_left _ evs ?x) with (run JSON_parse x evs).
  rewrite IH.
  destruct (step_calls w ev) as (fs & _ & -> & Ho & _).
  now apply has_class_replay_foreign.
Qed.

(** X7: one request per accepted selection, and none from anything else.
    The requests of a run are those of its selection changes that pass the
    three checks, in order, each sent once, whether or not earlier requests
    are still in flight; a reply or a failure never sends a request (the
    script does not retry). *)
Theorem requests_of_run (w : world) (evs : list event) :
  requests (trace (run JSON_parse w evs))
  = requests (trace w) ++ flat_map (uploads w) evs.
Proof.
  revert w. induction evs as [|ev evs IH]; intros w.
  - cbn. now rewrite app_nil_r.
  - cbn [run fold_left flat_map]. change (fold_left _ evs ?x) with (run JSON_parse x evs).
    rewrite IH.
    destruct (step_calls w ev) as (fs & -> & _ & _ & Hr & Hu & Hty & Hm).
    rewrite requests_app, Hr, <- app_assoc. do 2 f_equal.
    apply flat_map_ext. intros ev'. now apply uploads_config.
Qed.

(** X8: a reply that is the JSON text [null] makes the callback throw a
    [TypeError] when it reads the outcome, before any call: the element and
    the trace stay as they were, and nothing catches the exception, also
    when the callback is run by the event loop for a request in flight. *)
Theorem null_reply_throws (w : world) (body : string) :
  JSON_parse body = Some JNull ->
  on_upload_done JSON_parse body w = (Throw TypeError, w)
  /\ (forall k x, nth_error (pending w) k = Some x ->
      doneCallbacks x = [upload_done] ->
      step JSON_parse w (Done k body)
      = (Throw TypeError, set_pending (remove_nth k (pending w)) w)).
Proof.
  intros Hp. split.
  - now rewrite on_upload_done_spec, Hp.
  - intros k x Hk Hd. cbn [step].
    now rewrite Hk, Hd, fire_upload_done, on_upload_done_spec, Hp.
Qed.


End RunExtras.

Lemma pass_calls_no_success (w : world) (e : element) :
  has_class "success-text" (replay e (pass_calls w)) = false
  /\ navigations (pass_calls w) = [].
Proof.
  unfold pass_calls, after_type_check, type_rejection.
  destruct (String.eqb _ _); [split; dom|].
  destruct (hd_error _); [|split; dom].
  destruct (includes _ _); [|split; dom].
  destruct (_ >? _)%Z; split; dom.
Qed.

Section OfflineFacts.

Variable JSON_parse : string -> option json.

(** X13: success needs a reply. Along a run in which no reply arrives
    (selection changes and failed requests only), from a page whose
    requests in flight carry the script's callbacks and whose element does
    not carry the success class, the element never gets the success class
    and the page is never left. *)
Theorem no_success_without_reply (w : world) (evs : list event) :
  callbacks_of_script w ->
  has_class "success-text" (outcomeText w) = false ->
  forallb no_reply evs = true ->
  has_class "success-text" (outcomeText (run JSON_parse w evs)) = false
  /\ navigations (trace (run JSON_parse w evs)) = navigations (trace w).
Proof.
  revert w. induction evs as [|ev evs IH]; intros w Hcb Hs Hev; [now split|].
  cbn [forallb] in Hev. apply andb_true_iff in Hev as [Hno Hev].
  cbn [run fold_left]. change (fold_left _ evs ?x) with (run JSON_parse x evs).
  pose proof (step_callbacks_of_script JSON_parse w ev Hcb) as Hcb'.
  assert (Hstep : has_class "success-text" (outcomeText (snd (step JSON_parse w ev))) = false
                  /\ navigations (trace (snd (step JSON_parse w ev)))
                     = navigations (trace w)).
  { destruct ev as [i|k data|k]; [| discriminate |]; cbn [step].
    - fold (exec change_handler (set_input i w)).
      destruct (change_handler_calls (set_input i w)) as [-> ->].
      destruct (pass_calls_no_success (set_input i w) (outcomeText (set_input i w)))
        as [Hc Hn].
      split; [exact Hc|]. rewrite navigations_app, Hn. apply app_nil_r.
    - destruct (nth_error (pending w) k) as [x|] eqn:Hk; [|now split].
      unfold callbacks_of_script in Hcb. rewrite Forall_forall in Hcb.
      destruct (Hcb x (nth_error_In _ _ Hk)) as [_ ->]. now split. }
  destruct Hstep as [Hs' Hn'].
  destruct (IH _ Hcb' Hs' Hev) as [Hfin Hnav].
  split; [exact Hfin|]. now rewrite Hnav.
Qed.

End OfflineFacts.

(** ** The further statements at the page above *)

Lemma last_segment_decides_witness :
  name archive = ("backup.tar" ++ String "." "mp3")%string
  /\ extension (name archive) (picked archive page)
     = (Return "MP3", picked archive page)
  /\ (In "MP3" (ACCEPTED_FILE_TYPES page) <->
      trace (exec change_handler (picked archive page))
      = trace page ++ reset ++ after_type_check (picked archive page) archive).
Proof.
  split; [reflexivity|].
  refine (last_segment_decides (picked archive page) archive "backup.tar" "mp3" _ _ _ _).
  - vm_compute. discriminate.
  - reflexivity.
  - reflexivity.
  - reflexivity.
Defined.

Lemma name_case_irrelevant_witness :
  ascii_toUpperCase (name song) = ascii_toUpperCase (name shouting)
  /\ outcomeText (exec change_handler (selecting "C:\fakepath\song.Wav" [song] page))
     = outcomeText (exec change_handler (selecting "C:\fakepath\SONG.WAV" [shouting] page)).
Proof.
  split; [reflexivity|].
  refine (proj1 (name_case_irrelevant page _ _ song shouting [] [] _ _ _ _)).
  - discriminate.
  - discriminate.
  - reflexivity.
  - reflexivity.
Defined.

Lemma error_iff_no_request_witness :
  error_state (outcomeText (exec change_handler (picked notes page))) = true
  <-> requests (trace (exec change_handler (picked notes page)))
      = requests (trace (picked notes page)).
Proof.
  refine (proj1 (error_iff_no_request (picked notes page) _)).
  right. vm_compute. discriminate.
Defined.

Lemma smaller_file_uploaded_witness :
  requests (trace (exec change_handler (selecting "C:\fakepath\take.mp3" [short_take] page)))
  = requests (trace page) ++ [upload_request short_take].
Proof.
  refine (smaller_file_uploaded page "C:\fakepath\take.mp3" _ at_limit short_take [] [] _ _ _ _).
  - reflexivity.
  - discriminate.
  - reflexivity.
  - vm_compute. discriminate.
Defined.

Lemma other_classes_kept_witness :
  has_class "banner" (outcomeText styled_page) = true
  /\ has_class "banner" (outcomeText (run sample_parse styled_page one_by_one)) = true.
Proof.
  split; [reflexivity|].
  rewrite (other_classes_kept sample_parse styled_page one_by_one "banner");
    [reflexivity|discriminate|discriminate].
Defined.

Lemma null_reply_throws_witness :
  bare_parse "null" = Some JNull
  /\ step bare_parse waiting (Done 0 "null") = (Throw TypeError, set_pending [] waiting).
Proof.
  split; [reflexivity|].
  refine (proj2 (null_reply_throws bare_parse waiting "null" _) 0 _ _ _);
    reflexivity.
Defined.


Lemma no_success_without_reply_witness :
  forallb no_reply offline = true
  /\ has_class "success-text" (outcomeText (run sample_parse page offline)) = false
  /\ navigations (trace (run sample_parse page offline)) = [].
Proof.
  split; [reflexivity|].
  refine (no_success_without_reply sample_parse page offline _ _ _).
  - constructor.
  - reflexivity.
  - reflexivity.
Defined.
